(** * taro2-to-3: the command-line driver [bin/cli.js]

    A shallow embedding of the driver that migrates a Taro 2 project to
    Taro 3: it checks the git state, builds the project model, runs the
    three jscodeshift passes one after the other, renders a babel
    configuration and reconciles the dependencies of [package.json].

    The driver is effectful glue.  Its effects are modelled by a small
    monad over the file system that also records, in order, every action
    the process performs.  A write of Node's [fs] can fail; whether it does
    is up to the host.  Third-party packages ([execa], [ejs], [semver],
    [inquirer], [read-pkg-up], [is-git-clean], [chalk], [cli-table], Node's
    [path] and [os]) and the modules of the repository that [cli.js] only
    requires ([./project], [./taroDeps], [../transforms/utils/marker]) are
    the fields of one record, [host]; every theorem holds for every host.

    The three passes themselves are not part of [cli.js]; the last part of
    the definitions models them on a small syntax tree. *)

From stdpp Require Import base gmap list strings pretty.
From Stdlib Require Import ZArith Lia.

Open Scope Z_scope.

(** ** JavaScript values the driver handles *)

Module JS.

(** A string is falsy exactly when it is empty. *)
Definition truthy (s : string) : bool :=
  match s with
  | EmptyString => false
  | String _ _ => true
  end.

(** [Array.prototype.join] on an array of strings. *)
Fixpoint join (sep : string) (l : list string) : string :=
  match l with
  | [] => ""
  | x :: l' =>
      match l' with
      | [] => x
      | _ :: _ => x +:+ sep +:+ join sep l'
      end
  end.

Definition lower (c : Ascii.ascii) : Ascii.ascii :=
  let n := Ascii.N_of_ascii c in
  if ((65 <=? n) && (n <=? 90))%N then Ascii.ascii_of_N (n + 32) else c.

(** [String.prototype.toLowerCase].  Strings are byte strings here; the
    only use is a search for an ASCII phrase, on which bytes above 127,
    left as they are, have no influence. *)
Fixpoint toLowerCase (s : string) : string :=
  match s with
  | EmptyString => EmptyString
  | String c s' => String (lower c) (toLowerCase s')
  end.

(** [String.prototype.includes]. *)
Fixpoint includes (s sub : string) : bool :=
  String.prefix sub s ||
  match s with
  | EmptyString => false
  | String _ s' => includes s' sub
  end.

(** An object with string keys, as the list of its own properties in the
    order [Object.keys] enumerates them.  The keys of one object are
    pairwise distinct; none of the objects of the driver has a key that
    is an array index, so that enumeration order is insertion order. *)
Definition obj (V : Type) : Type := list (string * V).

(** [o[k]] *)
Fixpoint get {V} (o : obj V) (k : string) : option V :=
  match o with
  | [] => None
  | (k', v) :: o' => if decide (k' = k) then Some v else get o' k
  end.

(** [o[k] = v]: an existing key keeps its place. *)
Fixpoint set {V} (o : obj V) (k : string) (v : V) : obj V :=
  match o with
  | [] => [(k, v)]
  | (k', v') :: o' =>
      if decide (k' = k) then (k, v) :: o' else (k', v') :: set o' k v
  end.

(** [Object.keys(o)] *)
Definition keys {V} (o : obj V) : list string := o.*1.

(** A thrown [Error]: [execa] and [is-git-clean] attach the child's
    [stderr] to it. *)
Record error := Error {
  ename : string;
  message : string;
  stderr : option string
}.

#[global] Instance error_eq_dec : EqDecision error.
Proof. solve_decision. Defined.

(** [String(err)], that is [Error.prototype.toString]. *)
Definition error_text (e : error) : string :=
  match ename e, message e with
  | EmptyString, m => m
  | n, EmptyString => n
  | n, m => n +:+ ": " +:+ m
  end.

(** What the driver hands to [fs.appendFileSync] as data: a string, or the
    [Error] object it has caught. *)
Inductive chunk : Type :=
| Text (s : string)
| Object (e : error).

#[global] Instance chunk_eq_dec : EqDecision chunk.
Proof. solve_decision. Defined.

(** The text [fs] writes for [data] when it accepts it: an object is
    turned into a string. *)
Definition chunk_text (data : chunk) : string :=
  match data with
  | Text s => s
  | Object e => error_text e
  end.

(** What a call into the outside hands back: a value, or an exception
    (a rejected promise for the asynchronous ones). *)
Inductive result (A : Type) : Type :=
| Ok (a : A)
| Err (e : error).
Arguments Ok {A} a.
Arguments Err {A} e.

Definition is_ok {A} (r : result A) : bool :=
  match r with Ok _ => true | Err _ => false end.

End JS.

(** ** Data of the driver *)

(** The files on disk: path to content. *)
Abbreviation fs := (gmap string string).

(** What [cli.js] reads of a [Project] instance. *)
Record project := Project {
  sourceRoot : string;
  pages : list string
}.

(** An entry of [taroDeps.install]: [{name, version, dev}]. *)
Record dep := Dep {
  name : string;
  version : string;
  dev : bool
}.

(** The module [./taroDeps]. *)
Record registry := Registry {
  install : list dep;
  upgrade : list string;
  deprecated : list string
}.

(** The marker set [marker.output()] resolves to: package name to count. *)
Abbreviation markers := (JS.obj Z).

(** [package.json] as far as the driver looks into it: each dependency
    property, when present, is an object from package name to version
    range, which is what the manifest format prescribes. *)
Abbreviation manifest := (JS.obj (JS.obj string)).

(** The parsed command line ([yargs-parser]), by the fields [cli.js] reads.
    [force] and [style] are only tested for truthiness.  [cpus] and
    [gitignore] are tested and then handed on to jscodeshift: [None] stands
    for an absent or falsy value, [Some s] for a truthy one whose text is
    [s].  [pages] is a string once [bootstrap] has set it. *)
Record options := Options {
  force : bool;
  cpus : option string;
  gitignore : option string;
  style : bool;
  opt_pages : option string
}.

(** Everything the process does that can be seen from outside, in order. *)
Inductive event : Type :=
| Log (args : list string)                   (* console.log(...args) *)
| LogError (e : JS.error)                    (* console.error(err) *)
| GitStatus                                  (* isGitClean() *)
| NewProject (dir : string)                  (* new Project(dir) *)
| RewriteConfig                              (* project.transformAndOverwriteConfig() *)
| RewriteEntry                               (* project.transformEntry() *)
| MarkerStart                                (* marker.start() *)
| MarkerOutput                               (* marker.output() *)
| Spawn (bin : string) (args : list string)  (* execa(bin, args): child started *)
| Exited (bin : string) (ok : bool)          (* the awaited child has finished *)
| RenderFile (template : string) (data : JS.obj bool)  (* ejs.renderFile *)
| WriteFile (path source : string)           (* fs.writeFile, fulfilled *)
| WriteFileFailed (path source : string)     (* fs.writeFile, rejected *)
| AppendFile (path data : string)            (* fs.appendFileSync, returned *)
| AppendFileFailed (path : string) (data : JS.chunk)
                                             (* fs.appendFileSync, thrown *)
| ReadPkgUp (cwd : string)                   (* readPkgUp({cwd}) *)
| Prompt.                                    (* inquirer.prompt *)

#[global] Instance event_eq_dec : EqDecision event.
Proof. solve_decision. Defined.

(** A call that only reads the disk, and one that may rewrite it (also when
    it fails in the end). *)
Definition reads (A : Type) : Type := fs → JS.result A.
Definition writes (A : Type) : Type := fs → JS.result A * fs.

(** How a write of [fs] to one file ends: it goes through, or it throws
    (rejects) and leaves [kept] at the path, [None] for no file.  No other
    file is touched. *)
Inductive written : Type :=
| Done
| Failed (e : JS.error) (kept : option string).

(** The outside of [cli.js].  [new Project(dir)] only reads the build
    configuration and the entry file; the two rewriting methods of the
    project, the marker and the child processes may change files, and a
    project method may also update the fields of the project object, so it
    hands the object back. *)
Record host := Host {
  (* process and os *)
  NODE_ENV : option string;                   (* process.env.NODE_ENV *)
  cwd : string;                               (* process.cwd() *)
  dirname : string;                           (* __dirname *)
  EOL : string;                               (* os.EOL *)
  os_cpus : nat;                              (* os.cpus().length *)
  jscodeshiftBin : string;                    (* require.resolve('.bin/jscodeshift') *)
  path_join : string → string → string;       (* path.join *)
  (* presentation *)
  chalk : string → string → string;           (* chalk.<style>(text) *)
  table : list string → list (list string) → string;
                                              (* new Table({colAligns, chars}), rows pushed, toString() *)
  (* node's fs: how a write of this content to this path ends *)
  fs_writeFile : string → string → fs → written;
  fs_appendFileSync : string → JS.chunk → fs → written;
  (* third-party calls *)
  isGitClean : reads bool;
  execa : string → list string → writes unit;
  renderFile : string → JS.obj bool → reads string;
  readPkgUp : string → reads (option manifest);
  semverSatisfies : string → string → bool;
  prompt : reads string;                      (* the [theme] the user picks *)
  (* modules of the repository required by cli.js *)
  new_Project : string → reads project;
  transformAndOverwriteConfig : project → writes project;
  transformEntry : project → writes project;
  marker_start : writes unit;
  marker_output : writes markers;
  taroDeps : registry
}.

(** ** The monad of the driver *)

(** How a computation ends: with a value, with an exception that a
    [try]/[catch] further out may still handle, or in [process.exit]. *)
Inductive outcome (A : Type) : Type :=
| Ret (a : A)
| Throw (e : JS.error)
| Exit (code : Z).
Arguments Ret {A} a.
Arguments Throw {A} e.
Arguments Exit {A} code.

Record step (A : Type) : Type := Step {
  result : outcome A;
  disk : fs;
  emitted : list event
}.
Arguments Step {A} result disk emitted.
Arguments result {A} s.
Arguments disk {A} s.
Arguments emitted {A} s.

Definition M (A : Type) : Type := fs → step A.

Definition ret {A} (a : A) : M A := λ s, Step (Ret a) s [].

Definition bind {A B} (m : M A) (k : A → M B) : M B := λ s,
  let r := m s in
  match result r with
  | Ret a =>
      let r' := k a (disk r) in
      Step (result r') (disk r') (emitted r ++ emitted r')
  | Throw e => Step (Throw e) (disk r) (emitted r)
  | Exit c => Step (Exit c) (disk r) (emitted r)
  end.

(** [try { m } catch (err) { h err }]: [process.exit] is not an exception. *)
Definition try_catch {A} (m : M A) (h : JS.error → M A) : M A := λ s,
  let r := m s in
  match result r with
  | Throw e =>
      let r' := h e (disk r) in
      Step (result r') (disk r') (emitted r ++ emitted r')
  | _ => r
  end.

#[global] Instance M_ret : MRet M := @ret.
#[global] Instance M_bind : MBind M := λ A B k m, bind m k.

Definition emit (ev : event) : M unit := λ s, Step (Ret tt) s [ev].

Definition of_result {A} (r : JS.result A) : outcome A :=
  match r with
  | JS.Ok a => Ret a
  | JS.Err e => Throw e
  end.

(** A reading call, recorded as [ev]. *)
Definition ask {A} (ev : event) (f : reads A) : M A := λ s,
  Step (of_result (f s)) s [ev].

(** A writing call, recorded as [ev]. *)
Definition act {A} (ev : event) (f : writes A) : M A := λ s,
  Step (of_result (f s).1) (f s).2 [ev].

Definition process_exit {A} (code : Z) : M A := λ s, Step (Exit code) s [].

Definition console_log (args : list string) : M unit := emit (Log args).
Definition console_error (e : JS.error) : M unit := emit (LogError e).

(** [fs.existsSync] *)
Definition existsSync (path : string) : M bool := λ s,
  Step (Ret (bool_decide (is_Some (s !! path)))) s [].

(** The disk after a write to [path] that failed. *)
Definition leave (path : string) (kept : option string) (s : fs) : fs :=
  match kept with
  | Some content => <[path := content]> s
  | None => delete path s
  end.

(** [for (const x of l) { await body(x) }] *)
Fixpoint for_of {A} (l : list A) (body : A → M unit) : M unit :=
  match l with
  | [] => ret tt
  | x :: l' => body x;; for_of l' body
  end.

(** ** The driver *)

(** The line feed of JavaScript's [\n]. *)
Definition nl : string := String (Ascii.ascii_of_N 10) "".

Definition transformers : list string :=
  ["router"; "taro-imports"; "page-config"].

Definition dependencyProperties : list string :=
  ["dependencies"; "devDependencies"; "clientDependencies";
   "isomorphicDependencies"; "buildDependencies"].

Definition expectVersion : string := "^3.1.1".

Definition registry_url : string := "https://registry.npmmirror.com/".

Definition set_pages (o : options) (p : string) : options :=
  Options (force o) (cpus o) (gitignore o) (style o) (Some p).

Definition no_pages (o : options) : options :=
  Options (force o) (cpus o) (gitignore o) (style o) None.

Section Cli.
Context (h : host).

(** [fs.writeFile(path, source)], awaited *)
Definition writeFile (path source : string) : M unit := λ s,
  match fs_writeFile h path source s with
  | Done => Step (Ret tt) (<[path := source]> s) [WriteFile path source]
  | Failed e kept =>
      Step (Throw e) (leave path kept s) [WriteFileFailed path source]
  end.

(** [fs.appendFileSync(path, data)] *)
Definition appendFileSync (path : string) (data : JS.chunk) : M unit := λ s,
  match fs_appendFileSync h path data s with
  | Done =>
      Step (Ret tt)
        (<[path := default "" (s !! path) +:+ JS.chunk_text data]> s)
        [AppendFile path (JS.chunk_text data)]
  | Failed e kept =>
      Step (Throw e) (leave path kept s) [AppendFileFailed path data]
  end.

Definition transformersDir : string := path_join h (dirname h) "../transforms".
Definition babylonConfig : string := path_join h (dirname h) "./babylon.config.json".

(** [process.env.NODE_ENV === 'local'] *)
Definition is_local : bool := bool_decide (NODE_ENV h = Some "local").

(** [await execa(bin, args, {stdio: 'inherit', stripEof: false})] *)
Definition await_execa (bin : string) (args : list string) : M unit := λ s,
  let r := execa h bin args s in
  Step (of_result r.1) r.2 [Spawn bin args; Exited bin (JS.is_ok r.1)].

Definition ensureGitClean : M unit :=
  clean ← try_catch (ask GitStatus (isGitClean h))
    (λ err, mret
       match JS.stderr err with
       | Some s =>
           JS.truthy s &&
           JS.includes (JS.toLowerCase s) "not a git repository"
       | None => false
       end);
  if negb clean then
    console_log [chalk h "yellow" "Sorry that there are still some git changes"];;
    console_log [nl +:+ " you must commit or stash them firstly"];;
    process_exit 1
  else mret tt.

Definition getRunnerArgs (transformerPath parser : string) (o : options)
  : list string :=
  let args :=
    ["--verbose=2"; "--ignore-pattern=**/node_modules"; "--quote=single"] in
  (* limit usage for cpus *)
  let cpus :=
    default (pretty (Z.max 2 ((Z.of_nat (os_cpus h) + 2) / 3))) (cpus o) in
  let args := args ++ ["--cpus"; cpus] in
  let args := args ++ ["--no-babel"] in
  let args := args ++ ["--parser"; parser] in
  let args := args ++ ["--parser-config"; babylonConfig] in
  let args := args ++ ["--extensions=tsx,ts,jsx,js"] in
  let args := args ++ ["--transform"; transformerPath] in
  let args :=
    match gitignore o with
    | Some g => args ++ ["--ignore-config"; g]
    | None => args
    end in
  let args := if style o then args ++ ["--importStyles"] else args in
  let args :=
    match opt_pages o with
    | Some p => if JS.truthy p then args ++ ["--pages=" +:+ p] else args
    | None => args
    end in
  args.

Definition transform (transformer parser filePath : string) (o : options)
  : M unit :=
  console_log [chalk h "bgGreen.bold" "Transform"; transformer];;
  let transformerPath := path_join h transformersDir (transformer +:+ ".js") in
  let args := filePath :: getRunnerArgs transformerPath parser o in
  try_catch
    ((if is_local
      then console_log ["Running jscodeshift with: " +:+ JS.join " " args]
      else mret tt);;
     await_execa (jscodeshiftBin h) args)
    (λ err,
       console_error err;;
       if is_local then
         let errorLogFile := path_join h (dirname h) "./error.log" in
         appendFileSync errorLogFile (JS.Object err);;
         appendFileSync errorLogFile (JS.Text nl)
       else mret tt).

Definition run (filePath : string) (args : options) : M unit :=
  for_of transformers (λ transformer,
    transform transformer "babylon" filePath args).

(** The data object handed to the template. *)
Definition template_data (dependenciesMarkers : markers) : JS.obj bool :=
  [("shouldUseConstEnumPlugin",
    match JS.get dependenciesMarkers "babel-plugin-const-enum" with
    | Some n => bool_decide (0 < n)
    | None => false
    end)].

Definition renderBabelConfig (dependenciesMarkers : markers) : M string :=
  let template := path_join h (dirname h) "templates/babel.config.ejs" in
  let data := template_data dependenciesMarkers in
  ask (RenderFile template data) (renderFile h template data).

Definition checkBabelConfig (projectDir : string)
    (dependenciesMarkers : markers) : M unit :=
  try_catch
    (let projectBabelConfigPath := path_join h projectDir "babel.config.js" in
     found ← existsSync projectBabelConfigPath;
     if negb found then
       source ← renderBabelConfig dependenciesMarkers;
       writeFile projectBabelConfigPath source
     else mret tt)
    (λ error, console_log [chalk h "red" (JS.message error)]).

(** The two inner [forEach] loops over one dependency property. *)
Definition scan_deprecated (deps : JS.obj string) (deprecatedDeps : list string)
  : list string :=
  foldl (λ acc depName,
           match JS.get deps depName with
           | Some r => if JS.truthy r then acc ++ [depName] else acc
           | None => acc
           end)
        deprecatedDeps (deprecated (taroDeps h)).

Definition scan_upgrade (deps : JS.obj string)
    (upgradeDeps : JS.obj (string * string)) : JS.obj (string * string) :=
  foldl (λ acc depName,
           match JS.get deps depName with
           | Some versionRange =>
               if JS.truthy versionRange &&
                  negb (semverSatisfies h expectVersion versionRange)
               then JS.set acc depName (versionRange, expectVersion)
               else acc
           | None => acc
           end)
        upgradeDeps (upgrade (taroDeps h)).

(** [dependencyProperties.forEach(...)]: the pair [(upgradeDeps, deprecatedDeps)]. *)
Definition scan (packageJson : manifest)
  : JS.obj (string * string) * list string :=
  foldl (λ acc property,
           match JS.get packageJson property with
           | None => acc
           | Some deps => (scan_upgrade deps acc.1, scan_deprecated deps acc.2)
           end)
        ([], []) dependencyProperties.

Definition devInstallDeps (dependenciesMarkers : markers) : list string :=
  (name <$> filter (λ d, dev d = true) (install (taroDeps h)))
  ++ JS.keys dependenciesMarkers.

Definition checkDependencies (targetDir : string)
    (dependenciesMarkers : markers) : M unit :=
  let cwd := path_join h (cwd h) targetDir in
  closetPkgJson ← ask (ReadPkgUp cwd) (readPkgUp h cwd);
  match closetPkgJson with
  | None => console_log ["We didn't find your package.json"]
  | Some packageJson =>
    let '(upgradeDeps, deprecatedDeps) := scan packageJson in
    let installDeps := install (taroDeps h) in
    console_log ["----------- taro dependencies alert -----------" +:+ nl];;
    console_log [chalk h "yellow"
      "Should install/uninstall/upgrade these dependencies to ensure working well with taro3"];;
    let upgradeDepsTable :=
      table h ["left"; "right"; "right"; "right"]
        ((λ kv : string * (string * string),
            [kv.1; kv.2.1; "→"; kv.2.2]) <$> upgradeDeps) in
    let additionsDepsTable :=
      table h ["left"; "right"]
        ((λ d, [name d; version d]) <$> installDeps) in
    console_log [nl +:+ "* Install" +:+ nl];;
    console_log [chalk h "green" additionsDepsTable];;
    console_log [nl +:+ "* Upgrade" +:+ nl];;
    console_log [chalk h "blue" upgradeDepsTable];;
    console_log [nl +:+ "* Uninstall" +:+ nl];;
    console_log [chalk h "red" (JS.join (EOL h) deprecatedDeps)];;
    console_log [nl];;
    let pkgs :=
      (λ kv : string * (string * string), kv.1 +:+ "@" +:+ kv.2.2)
        <$> upgradeDeps in
    theme ← ask Prompt (prompt h);
    let bin :=
      if decide (theme = "Yes (use npm)") then Some "npm"
      else if decide (theme = "Yes (use yarn)") then Some "yarn"
      else None in
    match bin with
    | None => mret tt
    | Some bin =>
      let installCommand := if decide (bin = "npm") then "install" else "add" in
      let uninstallCommand := if decide (bin = "npm") then "uninstall" else "remove" in
      let commonInstallDeps :=
        name <$> filter (λ d, dev d = false) installDeps in
      console_log [chalk h "gray"
        (nl +:+ "> " +:+ bin +:+ " " +:+ installCommand +:+ " " +:+
         JS.join " " (pkgs ++ commonInstallDeps) +:+ nl)];;
      await_execa bin
        ([installCommand] ++ (pkgs ++ commonInstallDeps) ++
         ["--registry"; registry_url]);;
      let devInstallDeps := devInstallDeps dependenciesMarkers in
      console_log [chalk h "gray"
        (nl +:+ "> " +:+ bin +:+ " " +:+ installCommand +:+ " -D " +:+
         JS.join " " devInstallDeps +:+ nl)];;
      await_execa bin
        ([installCommand; "-D"] ++ devInstallDeps ++
         ["--registry"; registry_url]);;
      console_log [chalk h "gray"
        (nl +:+ "> " +:+ bin +:+ " " +:+ uninstallCommand +:+ " " +:+
         JS.join " " deprecatedDeps +:+ nl)];;
      await_execa bin ([uninstallCommand] ++ deprecatedDeps)
    end
  end.

Definition bootstrap (args : options) : M unit :=
  (if negb is_local then
     (* check the git state *)
     if negb (force args) then ensureGitClean
     else
       console_log [JS.join (EOL h) (replicate 3 (chalk h "yellow"
         "WARNING: You are trying to skip git status checking, please be careful"))]
   else mret tt);;
  let projectDir := cwd h in
  project ← try_catch (ask (NewProject projectDir) (new_Project h projectDir))
    (λ error,
       console_log [chalk h "red" (JS.message error)];;
       process_exit 1);
  project ← act RewriteConfig (transformAndOverwriteConfig h project);
  project ← act RewriteEntry (transformEntry h project);
  act MarkerStart (marker_start h);;
  let args :=
    set_pages args
      (JS.join "," (pages project ++ [sourceRoot project +:+ "/app"])) in
  run (sourceRoot project) args;;
  dependenciesMarkers ← act MarkerOutput (marker_output h);
  checkBabelConfig projectDir dependenciesMarkers;;
  checkDependencies (sourceRoot project) dependenciesMarkers;;
  console_log [nl +:+ "----------- Thanks for using taro-2-to-3 -----------"].

End Cli.

(** ** Names for the parts of a run *)

(** The command line of one pass, as [transform] builds it. *)
Definition pass_args (h : host) (filePath : string) (o : options)
    (transformer : string) : list string :=
  filePath ::
  getRunnerArgs h (path_join h (transformersDir h) (transformer +:+ ".js"))
    "babylon" o.

(** The child process of one pass: started, then finished. *)
Definition pass_events (h : host) (filePath : string) (o : options)
    (transformer : string) (ok : bool) : list event :=
  [Spawn (jscodeshiftBin h) (pass_args h filePath o transformer);
   Exited (jscodeshiftBin h) ok].

(** The file [transform] logs a failure to in local mode. *)
Definition error_log (h : host) : string :=
  path_join h (dirname h) "./error.log".

Definition is_child (e : event) : bool :=
  match e with
  | Spawn _ _ | Exited _ _ => true
  | _ => false
  end.

(** The child processes of a trace: started, finished, in order. *)
Definition children (tr : list event) : list event :=
  List.filter is_child tr.

(** The page scope of a project: line 328 of [cli.js]. *)
Definition scope (p : project) : string :=
  JS.join "," (pages p ++ [sourceRoot p +:+ "/app"]).

(** The first statement of [bootstrap]: the check of the git state. *)
Definition gate (h : host) (args : options) : M unit :=
  if negb (is_local h) then
    if negb (force args) then ensureGitClean h
    else
      console_log [JS.join (EOL h) (replicate 3 (chalk h "yellow"
        "WARNING: You are trying to skip git status checking, please be careful"))]
  else mret tt.

(** [bootstrap] up to and including [marker.start()]. *)
Definition prepare (h : host) (args : options) : M project :=
  gate h args;;
  project ← try_catch (ask (NewProject (cwd h)) (new_Project h (cwd h)))
    (λ error,
       console_log [chalk h "red" (JS.message error)];;
       process_exit 1);
  project ← act RewriteConfig (transformAndOverwriteConfig h project);
  project ← act RewriteEntry (transformEntry h project);
  act MarkerStart (marker_start h);;
  mret project.

(** Events that leave every file as it is. *)
Definition is_quiet (e : event) : bool :=
  match e with
  | GitStatus | Log _ | NewProject _ => true
  | _ => false
  end.

(** Events of the part of a run that comes before the passes. *)
Definition is_early (e : event) : bool :=
  match e with
  | GitStatus | Log _ | NewProject _ | RewriteConfig | RewriteEntry
  | MarkerStart => true
  | _ => false
  end.

(** Events of the passes. *)
Definition is_pass (e : event) : bool :=
  match e with
  | Log _ | LogError _ | Spawn _ _ | Exited _ _ | AppendFile _ _
  | AppendFileFailed _ _ => true
  | _ => false
  end.

(** The commands [checkDependencies] gives to a package manager. *)
Definition is_package_manager (bin : string) : bool :=
  bool_decide (bin = "npm" ∨ bin = "yarn").

Definition is_package_command (bin : string) (args : list string) : bool :=
  match args with
  | command :: _ =>
      bool_decide (bin = "npm" ∧ (command = "install" ∨ command = "uninstall") ∨
                   bin = "yarn" ∧ (command = "add" ∨ command = "remove"))
  | [] => false
  end.

(** Events of the babel-config templater and the dependency reconciler:
    the only children are commands of the package manager. *)
Definition is_late (e : event) : bool :=
  match e with
  | Log _ | RenderFile _ _ | WriteFile _ _ | WriteFileFailed _ _
  | ReadPkgUp _ | Prompt => true
  | Spawn bin args => is_package_command bin args
  | Exited bin _ => is_package_manager bin
  | _ => false
  end.

(** [bootstrap] from [marker.output()] on. *)
Definition finish (h : host) (project : project) : M unit :=
  dependenciesMarkers ← act MarkerOutput (marker_output h);
  checkBabelConfig h (cwd h) dependenciesMarkers;;
  checkDependencies h (sourceRoot project) dependenciesMarkers;;
  console_log [nl +:+ "----------- Thanks for using taro-2-to-3 -----------"].

(** ** The package [semver]

    [cli.js] asks [semver/functions/satisfies] one question.  The function
    is modelled on plain versions [x.y.z] and on the ranges [*], [x.y.z],
    [>=x.y.z], [^x.y.z] and [~x.y.z].  Like the package, it answers false
    when its first argument is not a version or its second is not a
    range. *)

Module Semver.

Definition digit (c : Ascii.ascii) : option N :=
  let n := Ascii.N_of_ascii c in
  if ((48 <=? n) && (n <=? 57))%N then Some (n - 48)%N else None.

Fixpoint digits (acc : N) (s : string) : option N :=
  match s with
  | EmptyString => Some acc
  | String c s' => d ← digit c; digits (10 * acc + d)%N s'
  end.

(** A numeric identifier: digits, without a leading zero. *)
Definition number (s : string) : option N :=
  match s with
  | EmptyString => None
  | String c EmptyString => digit c
  | String c _ => if decide (digit c = Some 0%N) then None else digits 0 s
  end.

Definition dot : Ascii.ascii := Ascii.ascii_of_N 46.

(** The fields of [s] between its dots. *)
Fixpoint fields (s : string) : list string :=
  match s with
  | EmptyString => [EmptyString]
  | String c s' =>
      if Ascii.eqb c dot then EmptyString :: fields s'
      else
        match fields s' with
        | f :: fs => String c f :: fs
        | [] => [String c EmptyString]
        end
  end.

Record semver := SemVer {
  major : N;
  minor : N;
  patch : N
}.

(** [new SemVer(s)]: [None] where the package throws. *)
Definition parse (s : string) : option semver :=
  match fields s with
  | [a; b; c] => x ← number a; y ← number b; z ← number c; Some (SemVer x y z)
  | _ => None
  end.

Definition lt (a b : semver) : bool :=
  ((major a <? major b) ||
   ((major a =? major b) &&
    ((minor a <? minor b) ||
     ((minor a =? minor b) && (patch a <? patch b)))))%N.

Definition le (a b : semver) : bool := negb (lt b a).

Inductive range : Type :=
| Any
| Exact (v : semver)
| AtLeast (v : semver)
| Caret (v : semver)
| Tilde (v : semver).

(** [s] without its prefix [p], when it starts with it. *)
Fixpoint strip (p s : string) : option string :=
  match p, s with
  | EmptyString, _ => Some s
  | String a p', String b s' => if Ascii.eqb a b then strip p' s' else None
  | String _ _, EmptyString => None
  end.

(** [new Range(s)]: [None] where the package throws. *)
Definition parse_range (s : string) : option range :=
  if decide (s = "" ∨ s = "*") then Some Any
  else
    match strip ">=" s with
    | Some v => AtLeast <$> parse v
    | None =>
        match strip "^" s with
        | Some v => Caret <$> parse v
        | None =>
            match strip "~" s with
            | Some v => Tilde <$> parse v
            | None => Exact <$> parse s
            end
        end
    end.

(** The first version a caret range no longer admits: the leftmost
    non-zero number goes up by one. *)
Definition caret_bound (v : semver) : semver :=
  if decide (major v ≠ 0%N) then SemVer (major v + 1) 0 0
  else if decide (minor v ≠ 0%N) then SemVer 0 (minor v + 1) 0
  else SemVer 0 0 (patch v + 1).

Definition test (r : range) (v : semver) : bool :=
  match r with
  | Any => true
  | Exact w => le w v && le v w
  | AtLeast w => le w v
  | Caret w => le w v && lt v (caret_bound w)
  | Tilde w => le w v && lt v (SemVer (major w) (minor w + 1) 0)
  end.

(** [satisfies(version, range)] *)
Definition satisfies (version range : string) : bool :=
  match parse version with
  | Some v =>
      match parse_range range with
      | Some r => test r v
      | None => false
      end
  | None => false
  end.

End Semver.

(** ** Node's [fs] on data that is not a string *)

(** What Node 14 and later throw when the data of a write is an object
    that is neither a string nor a buffer. *)
Definition invalid_arg_type : JS.error :=
  JS.Error "TypeError"
    "The 'data' argument must be of type string or an instance of Buffer, TypedArray, or DataView. Received an instance of Error"
    None.

(** [fs.appendFileSync] of Node 14 and later: an [Error] object is refused
    before the file is opened. *)
Definition strict_appendFileSync (path : string) (data : JS.chunk) (s : fs)
  : written :=
  match data with
  | JS.Text _ => Done
  | JS.Object _ => Failed invalid_arg_type (s !! path)
  end.

(** [fs.appendFileSync] of the versions before: the object is turned into
    a string and appended. *)
Definition coercing_appendFileSync (path : string) (data : JS.chunk) (s : fs)
  : written := Done.

(** ** A host to run the driver on *)

Definition demo_error : JS.error :=
  JS.Error "Error" "Command failed with exit code 1" None.

Definition demo_project : project :=
  Project "src" ["pages/index/index"; "pages/user/user"].

Definition demo_manifest : manifest :=
  [("dependencies", [("@tarojs/taro", "2.2.7"); ("nervjs", "^1.5.6")]);
   ("devDependencies", [("@tarojs/cli", "^3.1.1")])].

(** A project whose three passes all fail, on Node 14 or later, with a
    user who lets npm reconcile the dependencies.  [config] says what
    [new Project] finds. *)
Definition demo_host (config : JS.result project) : host := {|
  NODE_ENV := None;
  cwd := "/work/app";
  dirname := "/opt/taro2-to-3/bin";
  EOL := nl;
  os_cpus := 8;
  jscodeshiftBin := "/opt/taro2-to-3/node_modules/.bin/jscodeshift";
  path_join := λ a b, a +:+ "/" +:+ b;
  chalk := λ _ text, text;
  table := λ _ rows, JS.join nl (JS.join " " <$> rows);
  fs_writeFile := λ _ _ _, Done;
  fs_appendFileSync := strict_appendFileSync;
  isGitClean := λ _, JS.Ok true;
  execa := λ bin _ s,
    if decide (bin = "npm") then (JS.Ok tt, s) else (JS.Err demo_error, s);
  renderFile := λ _ _ _, JS.Ok "module.exports = {};";
  readPkgUp := λ _ _, JS.Ok (Some demo_manifest);
  semverSatisfies := Semver.satisfies;
  prompt := λ _, JS.Ok "Yes (use npm)";
  new_Project := λ _ _, config;
  transformAndOverwriteConfig := λ p s, (JS.Ok p, s);
  transformEntry := λ p s, (JS.Ok p, s);
  marker_start := λ s, (JS.Ok tt, s);
  marker_output := λ s, (JS.Ok [("babel-plugin-const-enum", 2)], s);
  taroDeps :=
    Registry
      [Dep "react" "^16.10.0" false; Dep "@tarojs/mini-runner" "^3.1.1" true]
      ["@tarojs/taro"; "@tarojs/cli"]
      ["nervjs"; "nerv-devtools"]
|}.

Definition demo : host := demo_host (JS.Ok demo_project).

(** A manifest that lists two dependencies with the empty version range. *)
Definition empty_ranges : manifest :=
  [("dependencies", [("nervjs", ""); ("@tarojs/taro", "")])].

Definition demo_options : options := Options false None None false None.

(** The range [r] that [deps] declares for [k] asks for an upgrade. *)
Definition wants_upgrade (h : host) (deps : JS.obj string) (k : string) : Prop :=
  ∃ r, JS.get deps k = Some r ∧ JS.truthy r = true ∧
       semverSatisfies h expectVersion r = false.

(** [deps] declares [k] with a range that is not empty. *)
Definition declares (deps : JS.obj string) (k : string) : Prop :=
  ∃ r, JS.get deps k = Some r ∧ JS.truthy r = true.

(** ** The three passes

    The transforms themselves ([transforms/router.js],
    [transforms/taro-imports.js], [transforms/page-config.js]) run inside
    jscodeshift, outside [cli.js].  They are modelled here on a small
    syntax tree, after the description of each pass. *)

Module Passes.

#[local] Set Warnings "-register-all".

(** Modelled from the spec: the syntax tree of the Syntax Tree Adapter, as
    far as the three passes look into it (expressions with member access,
    calls and object literals; imports; class and function declarations;
    property assignments).  A tree is what the printer turns into text:
    equal trees print to equal bytes. *)
Inductive expr : Type :=
| This
| Id (x : string)
| Member (object : expr) (property : string)
| Call (callee : expr) (arguments : list expr)
| Obj (properties : list (string * expr))
| Lit (raw : string).

Inductive member : Type :=
| Field (static : bool) (key : string) (value : expr)
| Method (key : string) (body : list expr).

Record class := Class {
  cname : string;
  superclass : option expr;
  members : list member
}.

Record import := Import {
  binding : option string;       (* the default binding *)
  named : list string;
  source : string
}.

Inductive stmt : Type :=
| SImport (i : import)
| SClass (exported : bool) (c : class)         (* [export default] class ... *)
| SFunction (exported : bool) (f : string) (body : list expr)
                                               (* [export default] function f ... *)
| SAssign (target value : expr)                (* target = value; *)
| SExpr (e : expr)
| SExportDefault (e : expr).                   (* export default e; *)

Abbreviation file := (list stmt).

(** What a pass hands back: the tree, and the sibling file it emits. *)
Record output := Output {
  tree : file;
  sibling : option (string * expr)
}.

(** Apply [f] to every expression of a statement. *)
Definition map_member (f : expr → expr) (m : member) : member :=
  match m with
  | Field s k v => Field s k (f v)
  | Method k body => Method k (f <$> body)
  end.

Definition map_class (f : expr → expr) (c : class) : class :=
  Class (cname c) (f <$> superclass c) (map_member f <$> members c).

Definition map_stmt (f : expr → expr) (s : stmt) : stmt :=
  match s with
  | SImport i => SImport i
  | SClass d c => SClass d (map_class f c)
  | SFunction d n body => SFunction d n (f <$> body)
  | SAssign t v => SAssign (f t) (f v)
  | SExpr e => SExpr (f e)
  | SExportDefault e => SExportDefault (f e)
  end.

(** Some expression of the member, the class, the statement satisfies [p]. *)
Definition member_has (p : expr → bool) (m : member) : bool :=
  match m with
  | Field _ _ v => p v
  | Method _ body => existsb p body
  end.

Definition class_has (p : expr → bool) (c : class) : bool :=
  from_option p false (superclass c) || existsb (member_has p) (members c).

Definition stmt_has (p : expr → bool) (s : stmt) : bool :=
  match s with
  | SImport _ => false
  | SClass _ c => class_has p c
  | SFunction _ _ body => existsb p body
  | SAssign t v => p t || p v
  | SExpr e => p e
  | SExportDefault e => p e
  end.

Section Vocabulary.

(** Modelled from the spec: the names the passes know.  The spec leaves
    them open ("the legacy umbrella package", "a fixed closed list of
    symbols that belong to the UI layer"); they are parameters here. *)
Context (legacy_pkg : string)        (* the legacy umbrella package *)
        (react_pkg : string)         (* the new base package *)
        (react_default : string)     (* the runtime default of the component framework *)
        (base_class : string)        (* the component base-class symbol *)
        (ui_symbols : list string)   (* the symbols of the UI layer *)
        (api_pkg : string)           (* the API package of the framework *)
        (factory : string)           (* its "get current instance" accessor *)
        (is_entry : string → bool)   (* the path is the entry file [app] *)
        (sibling_path : string → string).  (* [p] to [p.config], extension kept *)

(** *** router *)

(** Modelled from the spec: 4.5, "replace every such expression with
    [this.$instance.router]". *)
Fixpoint router_expr (e : expr) : expr :=
  match e with
  | Member o p =>
      match o with
      | This =>
          if decide (p = "$router")
          then Member (Member This "$instance") "router"
          else e
      | _ => Member (router_expr o) p
      end
  | Call f args => Call (router_expr f) (router_expr <$> args)
  | Obj props => Obj ((λ kv, (kv.1, router_expr kv.2)) <$> props)
  | _ => e
  end.

(** Modelled from the spec: 4.5, "detects member-access expressions
    [this.$router]". *)
Fixpoint uses_router (e : expr) : bool :=
  match e with
  | Member o p =>
      match o with
      | This => bool_decide (p = "$router")
      | _ => uses_router o
      end
  | Call f args => uses_router f || existsb uses_router args
  | Obj props => existsb (λ kv, uses_router kv.2) props
  | _ => false
  end.

Definition declares_instance (c : class) : bool :=
  existsb (λ m, match m with
                | Field _ k _ => bool_decide (k = "$instance")
                | Method _ _ => false
                end) (members c).

(** Modelled from the spec: 4.5, the rewrite of one class: every
    [this.$router] of its body replaced, and "if the enclosing class does
    not already declare a [$instance] field, inject exactly one class field
    [$instance = <factory-call>()] near the top of the class body". *)
Definition router_class (c : class) : class :=
  if existsb (member_has uses_router) (members c) then
    Class (cname c) (superclass c)
      ((if declares_instance c then []
        else [Field false "$instance" (Call (Id factory) [])]) ++
       (map_member router_expr <$> members c))
  else c.

Definition router_stmt (s : stmt) : stmt :=
  match s with
  | SClass d c => SClass d (router_class c)
  | _ => s
  end.

Definition imports_named (pkg x : string) (f : file) : bool :=
  existsb (λ s, match s with
                | SImport i =>
                    bool_decide (source i = pkg) && bool_decide (x ∈ named i)
                | _ => false
                end) f.

(** Modelled from the spec: 4.5, "ensure the factory symbol is imported
    from the framework's API package if not already imported". *)
Definition ensure_import (pkg x : string) (f : file) : file :=
  if imports_named pkg x f then f else SImport (Import None [x] pkg) :: f.

Definition file_uses_router (f : file) : bool :=
  existsb (λ s, match s with
                | SClass _ c => existsb (member_has uses_router) (members c)
                | _ => false
                end) f.

(** Modelled from the spec: 4.5, the pass [router]; "no-op (injects
    nothing, rewrites nothing) if no [$router] usage exists in the file". *)
Definition router (path : string) (f : file) : output :=
  if file_uses_router f
  then Output (ensure_import api_pkg factory (router_stmt <$> f)) None
  else Output f None.

(** *** taro-imports *)

(** [T.base_class], a reference to the base class as a property of the
    default binding [T]. *)
Definition is_base_access (T : string) (e : expr) : bool :=
  match e with
  | Member (Id x) p => bool_decide (x = T) && bool_decide (p = base_class)
  | _ => false
  end.

(** Modelled from the spec: 4.3, "all in-file references to the base-class
    symbol as a property of the old default binding are rewritten to the
    bare symbol". *)
Fixpoint bare_base (T : string) (e : expr) : expr :=
  match e with
  | Member o p =>
      if is_base_access T e then Id base_class else Member (bare_base T o) p
  | Call f args => Call (bare_base T f) (bare_base T <$> args)
  | Obj props => Obj ((λ kv, (kv.1, bare_base T kv.2)) <$> props)
  | _ => e
  end.

(** The expression mentions [T.base_class]; the expression mentions the
    identifier [T]. *)
Fixpoint accesses_base (T : string) (e : expr) : bool :=
  match e with
  | Member o p => is_base_access T e || accesses_base T o
  | Call f args => accesses_base T f || existsb (accesses_base T) args
  | Obj props => existsb (λ kv, accesses_base T kv.2) props
  | _ => false
  end.

Fixpoint mentions (T : string) (e : expr) : bool :=
  match e with
  | Id x => bool_decide (x = T)
  | Member o _ => mentions T o
  | Call f args => mentions T f || existsb (mentions T) args
  | Obj props => existsb (λ kv, mentions T kv.2) props
  | _ => false
  end.

(** Modelled from the spec: 4.3, "no-op if the new import shape is already
    present": the file imports the runtime default from the new package. *)
Definition has_new_shape (f : file) : bool :=
  existsb (λ s, match s with
                | SImport i =>
                    bool_decide (source i = react_pkg) &&
                    bool_decide (binding i = Some react_default)
                | _ => false
                end) f.

(** Modelled from the spec: 4.3, the import the pass detects: its
    "default binding comes from the legacy umbrella package" and it "also
    imports the component base-class symbol (named or as a property access
    on the default)".  The answer is the default binding. *)
Definition detect (f : file) (s : stmt) : option string :=
  match s with
  | SImport i =>
      match binding i with
      | Some T =>
          if bool_decide (source i = legacy_pkg) &&
             (bool_decide (base_class ∈ named i) ||
              existsb (stmt_has (accesses_base T)) f)
          then Some T else None
      | None => None
      end
  | _ => None
  end.

(** Modelled from the spec: 4.3, the split of the detected import into
    "(a) a new import of the component-framework's runtime default plus the
    same named symbols from the new base package, and (b) a retained import
    of the legacy umbrella package's default binding only if other members
    of it are referenced elsewhere in the file"; the named symbols are
    distributed by the list of UI symbols.  [rest] is the file after the
    references are rewritten. *)
Definition split_import (T : string) (i : import) (accessed : bool)
    (rest : file) : list stmt :=
  let ui := filter (λ x, x ∈ ui_symbols ∨ x = base_class) (named i) in
  let api := filter (λ x, ¬ (x ∈ ui_symbols ∨ x = base_class)) (named i) in
  let moved :=
    if accessed && negb (bool_decide (base_class ∈ named i))
    then ui ++ [base_class] else ui in
  let keep_default := existsb (stmt_has (mentions T)) rest in
  [SImport (Import (Some react_default) moved react_pkg)] ++
  (if keep_default then [SImport (Import (Some T) api legacy_pkg)]
   else match api with
        | [] => []
        | _ :: _ => [SImport (Import None api legacy_pkg)]
        end).

(** The first import of [todo] that the pass detects in the file [whole]. *)
Fixpoint first_detected (whole todo : file) : option (string * import) :=
  match todo with
  | [] => None
  | s :: todo' =>
      match detect whole s, s with
      | Some T, SImport i => Some (T, i)
      | _, _ => first_detected whole todo'
      end
  end.

(** Put the statements [new] in the place of that import. *)
Fixpoint replace_detected (whole : file) (new todo : list stmt) : file :=
  match todo with
  | [] => []
  | s :: todo' =>
      match detect whole s with
      | Some _ => new ++ todo'
      | None => s :: replace_detected whole new todo'
      end
  end.

(** Modelled from the spec: 4.3, the pass [taro-imports]. *)
Definition taro_imports (path : string) (f : file) : output :=
  if has_new_shape f then Output f None
  else
    match first_detected f f with
    | None => Output f None
    | Some (T, i) =>
        let accessed := existsb (stmt_has (accesses_base T)) f in
        let rest := map_stmt (bare_base T) <$> f in
        Output (replace_detected f (split_import T i accessed rest) rest) None
    end.

(** *** page-config *)

Inductive component : Type :=
| ClassComponent (n : string)
| FunctionComponent (n : string).

Definition declares_class (f : file) (n : string) : bool :=
  existsb (λ s, match s with
                | SClass _ c => bool_decide (cname c = n)
                | _ => false
                end) f.

Definition declares_function (f : file) (n : string) : bool :=
  existsb (λ s, match s with
                | SFunction _ m _ => bool_decide (m = n)
                | _ => false
                end) f.

(** The component a statement exports by default, if it does. *)
Definition default_of (f : file) (s : stmt) : option component :=
  match s with
  | SClass true c => Some (ClassComponent (cname c))
  | SFunction true n _ => Some (FunctionComponent n)
  | SExportDefault (Id n) =>
      if declares_class f n then Some (ClassComponent n)
      else if declares_function f n then Some (FunctionComponent n)
      else None
  | _ => None
  end.

(** Modelled from the spec: 4.4, the default export, when it can "be
    resolved unambiguously". *)
Definition resolve (f : file) : option component :=
  match omap (default_of f) f with
  | [c] => Some c
  | _ => None
  end.

(** Modelled from the spec: 4.4 (a), "a class field/static property
    literally named [config] holding an object literal". *)
Definition config_field (m : member) : option expr :=
  match m with
  | Field _ k (Obj props) =>
      if decide (k = "config") then Some (Obj props) else None
  | _ => None
  end.

(** Modelled from the spec: 4.4 (b), "a post-declaration property
    assignment [<ComponentName>.config = {...}]". *)
Definition config_assign (n : string) (s : stmt) : option expr :=
  match s with
  | SAssign (Member (Id x) k) (Obj props) =>
      if decide (x = n ∧ k = "config") then Some (Obj props) else None
  | _ => None
  end.

(** The candidate configs of a component in one statement, and the
    statement without them. *)
Definition configs_in (c : component) (s : stmt) : list expr :=
  match c, s with
  | ClassComponent n, SClass _ cl =>
      if decide (cname cl = n) then omap config_field (members cl) else []
  | FunctionComponent n, SAssign _ _ => option_list (config_assign n s)
  | _, _ => []
  end.

Definition without_configs (c : component) (s : stmt) : list stmt :=
  match c, s with
  | ClassComponent n, SClass d cl =>
      if decide (cname cl = n)
      then [SClass d (Class (cname cl) (superclass cl)
                        (filter (λ m, config_field m = None) (members cl)))]
      else [s]
  | FunctionComponent n, SAssign _ _ =>
      match config_assign n s with
      | Some _ => []
      | None => [s]
      end
  | _, _ => [s]
  end.

(** Modelled from the spec: 4.4, the pass [page-config]: the entry file is
    excluded; the pass is skipped when the default export cannot be
    resolved or when there are several candidate configs, and does nothing
    when there is none; otherwise the one config is removed from the tree
    and emitted as the sibling file. *)
Definition page_config (path : string) (f : file) : output :=
  if is_entry path then Output f None
  else
    match resolve f with
    | None => Output f None
    | Some c =>
        match f ≫= configs_in c with
        | [config] =>
            Output (f ≫= without_configs c) (Some (sibling_path path, config))
        | _ => Output f None
        end
    end.

(** Modelled from the spec: the three passes, in their declared order. *)
Definition passes : list (string → file → output) :=
  [router; taro_imports; page_config].

End Vocabulary.

End Passes.

(** ** More hosts to run the driver on *)

(** A host like [demo] whose environment, git state, manifest, user and
    children are given. *)
Definition lab (env : option string) (git : JS.result bool)
    (pkg : JS.result (option manifest)) (answer : string)
    (child : string → list string → writes unit) : host := {|
  NODE_ENV := env;
  cwd := "/work/app";
  dirname := "/opt/taro2-to-3/bin";
  EOL := nl;
  os_cpus := 8;
  jscodeshiftBin := "/opt/taro2-to-3/node_modules/.bin/jscodeshift";
  path_join := λ a b, a +:+ "/" +:+ b;
  chalk := λ _ text, text;
  table := λ _ rows, JS.join nl (JS.join " " <$> rows);
  fs_writeFile := λ _ _ _, Done;
  fs_appendFileSync := strict_appendFileSync;
  isGitClean := λ _, git;
  execa := child;
  renderFile := λ _ _ _, JS.Err demo_error;
  readPkgUp := λ _ _, pkg;
  semverSatisfies := Semver.satisfies;
  prompt := λ _, JS.Ok answer;
  new_Project := λ _ _, JS.Ok demo_project;
  transformAndOverwriteConfig := λ p s, (JS.Ok p, s);
  transformEntry := λ p s, (JS.Ok p, s);
  marker_start := λ s, (JS.Ok tt, s);
  marker_output := λ s, (JS.Ok [("babel-plugin-const-enum", 2)], s);
  taroDeps :=
    Registry
      [Dep "react" "^16.10.0" false; Dep "@tarojs/mini-runner" "^3.1.1" true]
      ["@tarojs/taro"; "@tarojs/cli"]
      ["nervjs"; "nerv-devtools"]
|}.

(** What git says outside a repository. *)
Definition not_a_repository : JS.error :=
  JS.Error "Error" "Command failed: git status --porcelain"
    (Some "fatal: Not a git repository (or any of the parent directories): .git").

(** A child that fails and leaves a trace of its attempt on the disk. *)
Definition failing_child (bin : string) (args : list string) : writes unit :=
  λ s, (JS.Err demo_error, <["/work/app/src/app.js" := "touched"]> s).

(** A child that succeeds and records its command line on the disk. *)
Definition recording_child (bin : string) (args : list string) : writes unit :=
  λ s, (JS.Ok tt,
        <["/log" := default "" (s !! "/log") +:+ JS.join " " (bin :: args) +:+ ";"]> s).

(** The host [h] with another [fs]. *)
Definition with_fs (h : host)
    (write : string → string → fs → written)
    (append : string → JS.chunk → fs → written) : host := {|
  NODE_ENV := NODE_ENV h;
  cwd := cwd h;
  dirname := dirname h;
  EOL := EOL h;
  os_cpus := os_cpus h;
  jscodeshiftBin := jscodeshiftBin h;
  path_join := path_join h;
  chalk := chalk h;
  table := table h;
  fs_writeFile := write;
  fs_appendFileSync := append;
  isGitClean := isGitClean h;
  execa := execa h;
  renderFile := renderFile h;
  readPkgUp := readPkgUp h;
  semverSatisfies := semverSatisfies h;
  prompt := prompt h;
  new_Project := new_Project h;
  transformAndOverwriteConfig := transformAndOverwriteConfig h;
  transformEntry := transformEntry h;
  marker_start := marker_start h;
  marker_output := marker_output h;
  taroDeps := taroDeps h
|}.

(** What [fs.writeFile] rejects with in a directory that cannot be
    written to. *)
Definition permission_denied : JS.error :=
  JS.Error "Error" "EACCES: permission denied, open '/work/app/babel.config.js'"
    None.

(** A directory that cannot be written to: every write is rejected and
    leaves the disk as it is. *)
Definition read_only (path source : string) (s : fs) : written :=
  Failed permission_denied (s !! path).

(** A manifest whose dependencies are those of a Taro 3 project. *)
Definition migrated_manifest : manifest :=
  [("dependencies", [("@tarojs/taro", "^3.1.1")]);
   ("devDependencies", [("@tarojs/cli", "3.2.0")])].

(** [lab] in local mode (on Node 14 or later), with failing passes. *)
Definition local_lab : host :=
  lab (Some "local") (JS.Ok true) (JS.Ok (Some demo_manifest)) "Yes (use npm)"
    failing_child.

(** [deps[depName]] is truthy. *)
Definition listed (deps : JS.obj string) (depName : string) : bool :=
  match JS.get deps depName with
  | Some range => JS.truthy range
  | None => false
  end.

(** * Proofs *)

(** ** The monad, step by step *)

Lemma bind_unfold {A B} (m : M A) (k : A → M B) (s : fs) :
  (m ≫= k) s =
    match result (m s) with
    | Ret a =>
        Step (result (k a (disk (m s)))) (disk (k a (disk (m s))))
             (emitted (m s) ++ emitted (k a (disk (m s))))
    | Throw e => Step (Throw e) (disk (m s)) (emitted (m s))
    | Exit c => Step (Exit c) (disk (m s)) (emitted (m s))
    end.
Proof. reflexivity. Qed.

Lemma bind_Ret {A B} (m : M A) (k : A → M B) (s : fs) (a : A) :
  result (m s) = Ret a →
  (m ≫= k) s =
    Step (result (k a (disk (m s)))) (disk (k a (disk (m s))))
         (emitted (m s) ++ emitted (k a (disk (m s)))).
Proof. intros Hm. by rewrite bind_unfold, Hm. Qed.

Lemma bind_Throw {A B} (m : M A) (k : A → M B) (s : fs) (e : JS.error) :
  result (m s) = Throw e →
  (m ≫= k) s = Step (Throw e) (disk (m s)) (emitted (m s)).
Proof. intros Hm. by rewrite bind_unfold, Hm. Qed.

Lemma bind_Exit {A B} (m : M A) (k : A → M B) (s : fs) (c : Z) :
  result (m s) = Exit c →
  (m ≫= k) s = Step (Exit c) (disk (m s)) (emitted (m s)).
Proof. intros Hm. by rewrite bind_unfold, Hm. Qed.

(** Project the steps, leaving strings and command lines as they are. *)
Ltac steps :=
  cbv beta zeta;
  cbn [result disk emitted of_result JS.is_ok fst snd negb andb].

Lemma bind_assoc {A B C} (m : M A) (k : A → M B) (k' : B → M C) (s : fs) :
  ((m ≫= k) ≫= k') s = (m ≫= λ a, k a ≫= k') s.
Proof.
  rewrite (bind_unfold (m ≫= k) k' s), !(bind_unfold m _ s).
  destruct (result (m s)) as [a|e|c]; steps; [|reflexivity..].
  rewrite (bind_unfold (k a) k').
  destruct (result (k a _)); steps; rewrite ?app_assoc; reflexivity.
Qed.

Lemma bind_ext {A B} (m : M A) (k k' : A → M B) (s : fs) :
  (∀ a s', k a s' = k' a s') → (m ≫= k) s = (m ≫= k') s.
Proof. intros H. rewrite !bind_unfold. destruct (result (m s)); by rewrite ?H. Qed.

Lemma ret_bind {A B} (a : A) (k : A → M B) (s : fs) :
  (mret a ≫= k) s = k a s.
Proof. rewrite bind_unfold. unfold mret, M_ret, ret. steps. by destruct (k a s). Qed.

(** Run the outermost statement of a sequence. *)
Ltac bind1 :=
  rewrite bind_unfold;
  unfold try_catch, ask, act, console_log, console_error, process_exit, emit,
    await_execa, existsSync, writeFile, appendFileSync, mret, M_ret, ret;
  steps.

Ltac ends :=
  unfold try_catch, ask, act, console_log, console_error, process_exit, emit,
    await_execa, existsSync, writeFile, appendFileSync, mret, M_ret, ret;
  steps.

Ltac all_events :=
  repeat first
    [ apply Forall_nil_2
    | apply Forall_cons_2; [exact I|]
    | apply Forall_app_2 ].

(** Walk down a list to the element looked for. *)
Ltac find_member :=
  repeat first
    [ apply list_elem_of_here
    | apply list_elem_of_further
    | apply elem_of_app; right ].

(** Refute the membership [H] of an event in a trace that is written out. *)
Ltac not_member H :=
  repeat match type of H with
    | _ ∈ _ ++ _ => apply elem_of_app in H as [H|H]
    | _ ∈ _ :: _ => apply elem_of_cons in H as [H|H]; [discriminate H|]
    | _ ∈ [] => by apply elem_of_nil in H
    end.

(** ** One pass, then three *)

(** What [transform] does, by how its child ends and, in local mode, by
    how the two appends to [error.log] end. *)
Lemma transform_step (h : host) (t filePath : string) (o : options) (s : fs) :
  let args := pass_args h filePath o t in
  let child := execa h (jscodeshiftBin h) args s in
  let log := error_log h in
  let head :=
    [Log [chalk h "bgGreen.bold" "Transform"; t]] ++
    (if is_local h
     then [Log ["Running jscodeshift with: " +:+ JS.join " " args]]
     else []) ++
    [Spawn (jscodeshiftBin h) args;
     Exited (jscodeshiftBin h) (JS.is_ok child.1)] in
  transform h t "babylon" filePath o s =
    match child.1 with
    | JS.Ok _ => Step (Ret tt) child.2 head
    | JS.Err err =>
        if is_local h then
          match fs_appendFileSync h log (JS.Object err) child.2 with
          | Failed e kept =>
              Step (Throw e) (leave log kept child.2)
                (head ++ [LogError err; AppendFileFailed log (JS.Object err)])
          | Done =>
              let s1 :=
                <[log := default "" (child.2 !! log) +:+ JS.error_text err]>
                  child.2 in
              match fs_appendFileSync h log (JS.Text nl) s1 with
              | Done =>
                  Step (Ret tt) (<[log := default "" (s1 !! log) +:+ nl]> s1)
                    (head ++ [LogError err; AppendFile log (JS.error_text err);
                              AppendFile log nl])
              | Failed e kept =>
                  Step (Throw e) (leave log kept s1)
                    (head ++ [LogError err; AppendFile log (JS.error_text err);
                              AppendFileFailed log (JS.Text nl)])
              end
          end
        else Step (Ret tt) child.2 (head ++ [LogError err])
    end.
Proof.
  intros args child log head. subst head child log args.
  unfold transform, error_log. fold (pass_args h filePath o t).
  bind1. bind1.
  destruct (is_local h); ends;
    destruct (execa h _ _ s) as [[[]|e] s']; steps; try reflexivity.
  - bind1. rewrite bind_unfold. unfold appendFileSync.
    destruct (fs_appendFileSync h _ (JS.Object e) s'); steps; [|reflexivity].
    destruct (fs_appendFileSync h _ (JS.Text nl) _); steps; reflexivity.
Qed.

Lemma children_app (l1 l2 : list event) :
  children (l1 ++ l2) = children l1 ++ children l2.
Proof. apply List.filter_app. Qed.

Lemma transform_children (h : host) (t filePath : string) (o : options)
    (s : fs) :
  children (emitted (transform h t "babylon" filePath o s)) =
    pass_events h filePath o t
      (JS.is_ok (execa h (jscodeshiftBin h) (pass_args h filePath o t) s).1).
Proof.
  rewrite transform_step. cbv zeta.
  destruct (execa h _ _ s).1 as [[]|e]; [by destruct (is_local h)|].
  destruct (is_local h); [|reflexivity].
  destruct (fs_appendFileSync h _ (JS.Object e) _); [|reflexivity].
  by destruct (fs_appendFileSync h _ (JS.Text nl) _).
Qed.

Lemma transform_is_pass (h : host) (t filePath : string) (o : options)
    (s : fs) :
  Forall is_pass (emitted (transform h t "babylon" filePath o s)).
Proof.
  rewrite transform_step. cbv zeta.
  destruct (execa h _ _ s).1 as [[]|e]; [destruct (is_local h); all_events|].
  destruct (is_local h); [|all_events].
  destruct (fs_appendFileSync h _ (JS.Object e) _); [|all_events].
  destruct (fs_appendFileSync h _ (JS.Text nl) _); all_events.
Qed.

(** A pass returns, or its catch block throws: that takes local mode and
    a child that failed. *)
Lemma transform_ends (h : host) (t filePath : string) (o : options) (s : fs) :
  result (transform h t "babylon" filePath o s) = Ret tt ∨
  ∃ e,
    result (transform h t "babylon" filePath o s) = Throw e ∧
    is_local h = true ∧
    JS.is_ok (execa h (jscodeshiftBin h) (pass_args h filePath o t) s).1 = false.
Proof.
  rewrite transform_step. cbv zeta.
  destruct (execa h _ _ s).1 as [[]|e]; [by left|].
  destruct (is_local h); [|by left].
  destruct (fs_appendFileSync h _ (JS.Object e) _); [|right; by eauto].
  destruct (fs_appendFileSync h _ (JS.Text nl) _); [by left|right; by eauto].
Qed.

Lemma transform_not_local (h : host) (t filePath : string) (o : options)
    (s : fs) :
  is_local h = false →
  result (transform h t "babylon" filePath o s) = Ret tt ∧
  disk (transform h t "babylon" filePath o s) =
    (execa h (jscodeshiftBin h) (pass_args h filePath o t) s).2 ∧
  ∀ path data,
    (AppendFile path data ∉ emitted (transform h t "babylon" filePath o s)) ∧
    (WriteFile path data ∉ emitted (transform h t "babylon" filePath o s)).
Proof.
  intros Hlocal. rewrite transform_step. cbv zeta. rewrite Hlocal.
  destruct (execa h _ _ s).1 as [[]|e]; cbn [result disk emitted];
    (split_and!; [reflexivity..|]); intros path data;
    split; intros Hin; not_member Hin.
Qed.

(** [run] is the three passes in a row, up to the first that throws. *)
Lemma run_step (h : host) (filePath : string) (o : options) (s : fs) :
  let r1 := transform h "router" "babylon" filePath o s in
  let r2 := transform h "taro-imports" "babylon" filePath o (disk r1) in
  let r3 := transform h "page-config" "babylon" filePath o (disk r2) in
  run h filePath o s =
    match result r1 with
    | Ret _ =>
        match result r2 with
        | Ret _ =>
            Step (result r3) (disk r3) (emitted r1 ++ emitted r2 ++ emitted r3)
        | Throw e => Step (Throw e) (disk r2) (emitted r1 ++ emitted r2)
        | Exit c => Step (Exit c) (disk r2) (emitted r1 ++ emitted r2)
        end
    | Throw e => Step (Throw e) (disk r1) (emitted r1)
    | Exit c => Step (Exit c) (disk r1) (emitted r1)
    end.
Proof.
  intros r1 r2 r3. unfold run, transformers. cbn [for_of].
  rewrite bind_unfold. fold r1.
  destruct (result r1) as [[]|e|c]; [|reflexivity..].
  rewrite bind_unfold. fold r2.
  destruct (result r2) as [[]|e|c]; [|reflexivity..].
  rewrite bind_unfold. fold r3.
  destruct (result r3) as [[]|e|c]; cbn [result disk emitted ret];
    rewrite ?app_nil_r; reflexivity.
Qed.

Lemma run_is_pass (h : host) (filePath : string) (o : options) (s : fs) :
  Forall is_pass (emitted (run h filePath o s)).
Proof.
  rewrite run_step. cbv zeta.
  repeat match goal with
         | |- context [result ?r] => destruct (result r)
         end; cbn [emitted];
    repeat (apply Forall_app_2; [apply transform_is_pass|]);
    apply transform_is_pass.
Qed.

(** The children of [run]: the three passes, each started after the one
    before it has finished, or the first one or two of them when the catch
    block of the last one started throws. *)
Lemma run_children (h : host) (filePath : string) (o : options) (s : fs) :
  let pass := pass_events h filePath o in
  let tr := children (emitted (run h filePath o s)) in
  (∃ ok1 ok2 ok3 : bool,
     tr = pass "router" ok1 ++ pass "taro-imports" ok2 ++ pass "page-config" ok3 ∧
     (result (run h filePath o s) = Ret tt ∨
      ∃ e, result (run h filePath o s) = Throw e ∧
           is_local h = true ∧ ok3 = false)) ∨
  (∃ (ok1 : bool) e,
     tr = pass "router" ok1 ++ pass "taro-imports" false ∧
     result (run h filePath o s) = Throw e ∧ is_local h = true) ∨
  (∃ e,
     tr = pass "router" false ∧
     result (run h filePath o s) = Throw e ∧ is_local h = true).
Proof.
  intros pass tr. subst tr. rewrite run_step. cbv zeta.
  set (r1 := transform h "router" "babylon" filePath o s).
  set (r2 := transform h "taro-imports" "babylon" filePath o (disk r1)).
  set (r3 := transform h "page-config" "babylon" filePath o (disk r2)).
  pose proof (transform_ends h "router" filePath o s) as E1.
  pose proof (transform_ends h "taro-imports" filePath o (disk r1)) as E2.
  pose proof (transform_ends h "page-config" filePath o (disk r2)) as E3.
  pose proof (transform_children h "router" filePath o s) as C1.
  pose proof (transform_children h "taro-imports" filePath o (disk r1)) as C2.
  pose proof (transform_children h "page-config" filePath o (disk r2)) as C3.
  fold r1 in E1, C1. fold r2 in E2, C2. fold r3 in E3, C3. fold pass in C1, C2, C3.
  destruct E1 as [-> | (e & -> & Hl & Hk)]; cbn [result emitted].
  2:{ right; right. exists e. rewrite C1, Hk. done. }
  destruct E2 as [-> | (e & -> & Hl & Hk)]; cbn [result emitted].
  2:{ right; left. eexists _, e. rewrite children_app, C1, C2, Hk. done. }
  left. eexists _, _, _. rewrite !children_app, C1, C2, C3.
  split; [reflexivity|].
  destruct E3 as [-> | (e & -> & Hl & Hk)]; [by left|right; by eauto].
Qed.

Lemma run_ends (h : host) (filePath : string) (o : options) (s : fs) :
  result (run h filePath o s) = Ret tt ∨
  ∃ e, result (run h filePath o s) = Throw e ∧ is_local h = true.
Proof.
  destruct (run_children h filePath o s)
    as [(? & ? & ? & _ & [?|(e & ? & ? & _)])|[(? & e & _ & ? & ?)|(e & _ & ? & ?)]];
    eauto.
Qed.

(** Whenever [run] returns, all three passes have run. *)
Lemma run_returns (h : host) (filePath : string) (o : options) (s : fs) :
  result (run h filePath o s) = Ret tt →
  ∃ ok1 ok2 ok3 : bool,
    children (emitted (run h filePath o s)) =
      pass_events h filePath o "router" ok1 ++
      pass_events h filePath o "taro-imports" ok2 ++
      pass_events h filePath o "page-config" ok3.
Proof.
  intros Hr.
  destruct (run_children h filePath o s)
    as [(ok1 & ok2 & ok3 & ? & _)|[(? & e & _ & ? & _)|(e & _ & ? & _)]];
    [by eauto|congruence..].
Qed.

(** ** The shape of [bootstrap] *)

Lemma gate_spec (h : host) (o : options) (s : fs) :
  disk (gate h o s) = s ∧
  Forall is_quiet (emitted (gate h o s)) ∧
  (result (gate h o s) = Ret tt ∨ result (gate h o s) = Exit 1).
Proof.
  unfold gate, ensureGitClean.
  destruct (is_local h), (force o); cbn [negb];
    try (ends; split_and!; [reflexivity|all_events|by left]).
  bind1.
  destruct (isGitClean h s) as [[]|e]; steps.
  - split_and!; [reflexivity|all_events|by left].
  - repeat bind1. split_and!; [reflexivity|all_events|by right].
  - destruct (match JS.stderr e with Some _ => _ | None => _ end); steps.
    + split_and!; [reflexivity|all_events|by left].
    + repeat bind1. split_and!; [reflexivity|all_events|by right].
Qed.

Lemma quiet_is_early (tr : list event) : Forall is_quiet tr → Forall is_early tr.
Proof. intros H. eapply Forall_impl; [exact H|]. by intros []. Qed.

Lemma quiet_children (tr : list event) : Forall is_quiet tr → children tr = [].
Proof. induction 1 as [|e l He _ IH]; [done|]. by destruct e. Qed.

Lemma prepare_spec (h : host) (o : options) (s : fs) :
  match result (prepare h o s) with
  | Ret p =>
      ∃ pre,
        emitted (prepare h o s) =
          pre ++ [NewProject (cwd h); RewriteConfig; RewriteEntry; MarkerStart] ∧
        Forall is_quiet pre
  | _ => Forall is_early (emitted (prepare h o s))
  end.
Proof.
  destruct (gate_spec h o s) as (Hd & Hq & Hr).
  pose proof (quiet_is_early _ Hq) as He.
  unfold prepare. rewrite bind_unfold.
  destruct Hr as [-> | ->]; steps; [|exact He].
  rewrite Hd. bind1.
  destruct (new_Project h (cwd h) s) as [p|e]; steps.
  2:{ repeat bind1. apply Forall_app_2; [exact He|all_events]. }
  bind1.
  destruct (transformAndOverwriteConfig h p s) as [[p1|e] s1]; steps.
  2:{ apply Forall_app_2; [exact He|all_events]. }
  bind1.
  destruct (transformEntry h p1 s1) as [[p2|e] s2]; steps.
  2:{ apply Forall_app_2; [exact He|all_events]. }
  bind1.
  destruct (marker_start h s2) as [[[]|e] s3]; steps.
  2:{ apply Forall_app_2; [exact He|all_events]. }
  exists (emitted (gate h o s)). split; [reflexivity|exact Hq].
Qed.

Lemma prepare_no_project (h : host) (o : options) (s : fs) (e : JS.error) :
  new_Project h (cwd h) s = JS.Err e →
  result (prepare h o s) = Exit 1 ∧
  disk (prepare h o s) = s ∧
  Forall is_quiet (emitted (prepare h o s)) ∧
  (result (gate h o s) = Ret tt →
   emitted (prepare h o s) =
     emitted (gate h o s) ++
     [NewProject (cwd h); Log [chalk h "red" (JS.message e)]]).
Proof.
  intros Hnew.
  destruct (gate_spec h o s) as (Hd & Hq & Hr).
  unfold prepare. rewrite bind_unfold.
  destruct Hr as [-> | ->]; steps.
  - rewrite Hd. bind1. rewrite Hnew; steps. repeat bind1.
    split_and!; [reflexivity..| |reflexivity].
    apply Forall_app_2; [exact Hq|all_events].
  - split_and!; [reflexivity|exact Hd|exact Hq|discriminate].
Qed.

Lemma bootstrap_split (h : host) (o : options) (s : fs) :
  bootstrap h o s =
    (p ← prepare h o;
     run h (sourceRoot p) (set_pages o (scope p));; finish h p) s.
Proof.
  change (bootstrap h o s) with
    ((gate h o;;
      project ← try_catch (ask (NewProject (cwd h)) (new_Project h (cwd h)))
        (λ error,
           console_log [chalk h "red" (JS.message error)];;
           process_exit 1);
      project ← act RewriteConfig (transformAndOverwriteConfig h project);
      project ← act RewriteEntry (transformEntry h project);
      act MarkerStart (marker_start h);;
      run h (sourceRoot project) (set_pages o (scope project));;
      finish h project) s).
  unfold prepare. symmetry.
  rewrite bind_assoc; apply bind_ext; intros _ s0.
  rewrite bind_assoc; apply bind_ext; intros p0 s1.
  rewrite bind_assoc; apply bind_ext; intros p1 s2.
  rewrite bind_assoc; apply bind_ext; intros p2 s3.
  rewrite bind_assoc; apply bind_ext; intros [] s4.
  by rewrite ret_bind.
Qed.

Lemma bootstrap_after_prepare (h : host) (o : options) (s : fs) (p : project) :
  result (prepare h o s) = Ret p →
  let r := run h (sourceRoot p) (set_pages o (scope p)) (disk (prepare h o s)) in
  bootstrap h o s =
    match result r with
    | Ret _ =>
        Step (result (finish h p (disk r))) (disk (finish h p (disk r)))
             (emitted (prepare h o s) ++ emitted r ++ emitted (finish h p (disk r)))
    | Throw e => Step (Throw e) (disk r) (emitted (prepare h o s) ++ emitted r)
    | Exit c => Step (Exit c) (disk r) (emitted (prepare h o s) ++ emitted r)
    end.
Proof.
  intros Hp r. rewrite bootstrap_split, (bind_Ret _ _ _ _ Hp).
  rewrite bind_unfold. fold r. by destruct (result r) as [[]|e|c].
Qed.

Lemma bootstrap_stops_early (h : host) (o : options) (s : fs) :
  (∀ p, result (prepare h o s) ≠ Ret p) →
  bootstrap h o s =
    Step (match result (prepare h o s) with
          | Ret _ => Ret tt
          | Throw e => Throw e
          | Exit c => Exit c
          end) (disk (prepare h o s)) (emitted (prepare h o s)).
Proof.
  intros Hp. rewrite bootstrap_split.
  destruct (result (prepare h o s)) as [p|e|c] eqn:E.
  - by destruct (Hp p).
  - by rewrite (bind_Throw _ _ _ _ E).
  - by rewrite (bind_Exit _ _ _ _ E).
Qed.

(** ** After the passes *)

Lemma lookup_leave_ne (path other : string) (kept : option string) (s : fs) :
  other ≠ path → leave path kept s !! other = s !! other.
Proof.
  intros Hne. destruct kept; cbn [leave].
  - by apply lookup_insert_ne.
  - by apply lookup_delete_ne.
Qed.

Lemma lookup_leave (path : string) (kept : option string) (s : fs) :
  leave path kept s !! path = kept.
Proof.
  destruct kept; cbn [leave].
  - apply lookup_insert_eq.
  - apply lookup_delete_eq.
Qed.

Lemma checkBabelConfig_step (h : host) (dir : string) (m : markers) (s : fs) :
  let path := path_join h dir "babel.config.js" in
  let template := path_join h (dirname h) "templates/babel.config.ejs" in
  checkBabelConfig h dir m s =
    match s !! path with
    | Some _ => Step (Ret tt) s []
    | None =>
        match renderFile h template (template_data m) s with
        | JS.Ok source =>
            match fs_writeFile h path source s with
            | Done =>
                Step (Ret tt) (<[path := source]> s)
                  [RenderFile template (template_data m); WriteFile path source]
            | Failed e kept =>
                Step (Ret tt) (leave path kept s)
                  [RenderFile template (template_data m);
                   WriteFileFailed path source;
                   Log [chalk h "red" (JS.message e)]]
            end
        | JS.Err e =>
            Step (Ret tt) s
              [RenderFile template (template_data m);
               Log [chalk h "red" (JS.message e)]]
        end
    end.
Proof.
  intros path template.
  unfold checkBabelConfig, renderBabelConfig. fold path template.
  unfold try_catch. bind1.
  destruct (s !! path) as [c|] eqn:Hget.
  - rewrite bool_decide_eq_true_2 by eauto. reflexivity.
  - rewrite bool_decide_eq_false_2 by (by intros [? ?]). steps.
    bind1. destruct (renderFile h _ _ s) as [src|e]; steps; [|reflexivity].
    destruct (fs_writeFile h path src s); steps; reflexivity.
Qed.

Lemma checkBabelConfig_late (h : host) (dir : string) (m : markers) (s : fs) :
  result (checkBabelConfig h dir m s) = Ret tt ∧
  Forall is_late (emitted (checkBabelConfig h dir m s)).
Proof.
  rewrite checkBabelConfig_step.
  destruct (s !! _); [by split; all_events|].
  destruct (renderFile h _ _ s); [|split; try reflexivity; all_events].
  destruct (fs_writeFile h _ _ s); split; try reflexivity; all_events.
Qed.

Lemma checkDependencies_late (h : host) (dir : string) (m : markers) (s : fs) :
  Forall is_late (emitted (checkDependencies h dir m s)).
Proof.
  unfold checkDependencies. bind1.
  destruct (readPkgUp h _ s) as [[pj|]|e]; steps; [|all_events..].
  destruct (scan h pj) as [up depr].
  do 9 bind1. bind1.
  destruct (prompt h s) as [theme|e]; steps; [|all_events].
  destruct (decide (theme = _)); [|destruct (decide (theme = _))];
    ends; [| |all_events].
  - do 2 bind1. destruct (execa h _ _ s) as [[[]|?] s1]; steps; [|all_events].
    do 2 bind1. destruct (execa h _ _ s1) as [[[]|?] s2]; steps; [|all_events].
    bind1. destruct (execa h _ _ s2) as [[[]|?] s3]; steps; all_events.
  - do 2 bind1. destruct (execa h _ _ s) as [[[]|?] s1]; steps; [|all_events].
    do 2 bind1. destruct (execa h _ _ s1) as [[[]|?] s2]; steps; [|all_events].
    bind1. destruct (execa h _ _ s2) as [[[]|?] s3]; steps; all_events.
Qed.

(** [finish], statement by statement. *)
Lemma finish_step (h : host) (p : project) (s : fs) :
  finish h p s =
    match marker_output h s with
    | (JS.Ok m, s1) =>
        let b := checkBabelConfig h (cwd h) m s1 in
        let d := checkDependencies h (sourceRoot p) m (disk b) in
        Step (result d) (disk d)
          ([MarkerOutput] ++ emitted b ++ emitted d ++
           match result d with
           | Ret _ =>
               [Log [nl +:+ "----------- Thanks for using taro-2-to-3 -----------"]]
           | _ => []
           end)
    | (JS.Err e, s1) => Step (Throw e) s1 [MarkerOutput]
    end.
Proof.
  unfold finish. bind1.
  destruct (marker_output h s) as [[m|e] s1]; steps; [|reflexivity].
  rewrite bind_unfold.
  destruct (checkBabelConfig_late h (cwd h) m s1) as [-> _]. steps.
  bind1.
  destruct (result (checkDependencies h _ m _)) as [[]|?|?]; steps;
    rewrite ?app_nil_r; reflexivity.
Qed.

Lemma finish_spec (h : host) (p : project) (s : fs) :
  ∃ post,
    emitted (finish h p s) = MarkerOutput :: post ∧ Forall is_late post.
Proof.
  rewrite finish_step.
  destruct (marker_output h s) as [[m|e] s1]; cbv zeta; cbn [emitted app];
    [|by exists []].
  eexists. split; [reflexivity|].
  apply Forall_app_2; [apply checkBabelConfig_late|].
  apply Forall_app_2; [apply checkDependencies_late|].
  destruct (result _); all_events.
Qed.

(** ** Strings *)

Lemma truthy_app_r (a b : string) : JS.truthy b → JS.truthy (a +:+ b).
Proof. destruct a; [done|]. by intros _. Qed.

Lemma join_snoc_truthy (sep : string) (l : list string) (x : string) :
  JS.truthy x → JS.truthy (JS.join sep (l ++ [x])).
Proof.
  intros Hx. induction l as [|a l IH]; [done|].
  cbn [app JS.join]. destruct (l ++ [x]) eqn:E.
  - by destruct l.
  - by do 2 apply truthy_app_r.
Qed.

Lemma scope_truthy (p : project) : JS.truthy (scope p) = true.
Proof.
  apply Is_true_true, join_snoc_truthy, truthy_app_r. done.
Qed.

Lemma getRunnerArgs_set_pages (h : host) (tp parser : string) (o : options)
    (p : string) :
  JS.truthy p = true →
  getRunnerArgs h tp parser (set_pages o p) =
    getRunnerArgs h tp parser (no_pages o) ++ ["--pages=" +:+ p].
Proof.
  intros Hp. unfold getRunnerArgs, set_pages, no_pages.
  cbn [force cpus gitignore style opt_pages]. by rewrite Hp.
Qed.

(** ** C2: the order of the passes *)

Lemma pass_args_transform (h : host) (filePath : string) (o : options)
    (transformer : string) :
  pass_args h filePath o transformer !! 0%nat = Some filePath ∧
  pass_args h filePath o transformer !! 12%nat = Some "--transform" ∧
  pass_args h filePath o transformer !! 13%nat =
    Some (path_join h (path_join h (dirname h) "../transforms")
            (transformer +:+ ".js")).
Proof.
  unfold pass_args, getRunnerArgs.
  destruct (gitignore o), (style o), (opt_pages o) as [[|]|];
    cbn [JS.truthy app lookup list_lookup]; done.
Qed.

(** C2.  [run] starts its children one at a time and in the declared
    order: the pass [router], then [taro-imports], then [page-config], each
    started only after the one before it has finished, and each with the
    file of its own transformer after [--transform].  All three are
    started, unless the catch block of a failed pass throws in turn, which
    takes local mode: then [run] rejects, and the passes after the failed
    one are never started. *)
Theorem C2_passes_one_at_a_time_in_declared_order
    (h : host) (filePath : string) (o : options) (s : fs) :
  let bin := jscodeshiftBin h in
  let command (transformer : string) := pass_args h filePath o transformer in
  let started := children (emitted (run h filePath o s)) in
  (∀ transformer : string,
     command transformer !! 0%nat = Some filePath ∧
     command transformer !! 12%nat = Some "--transform" ∧
     command transformer !! 13%nat =
       Some (path_join h (path_join h (dirname h) "../transforms")
               (transformer +:+ ".js"))) ∧
  ((∃ ok1 ok2 ok3 : bool,
      started =
        [Spawn bin (command "router"); Exited bin ok1;
         Spawn bin (command "taro-imports"); Exited bin ok2;
         Spawn bin (command "page-config"); Exited bin ok3] ∧
      (result (run h filePath o s) = Ret tt ∨
       ∃ e, result (run h filePath o s) = Throw e ∧
            is_local h = true ∧ ok3 = false)) ∨
   (∃ (ok1 : bool) e,
      started =
        [Spawn bin (command "router"); Exited bin ok1;
         Spawn bin (command "taro-imports"); Exited bin false] ∧
      result (run h filePath o s) = Throw e ∧ is_local h = true) ∨
   (∃ e,
      started = [Spawn bin (command "router"); Exited bin false] ∧
      result (run h filePath o s) = Throw e ∧ is_local h = true)).
Proof.
  intros bin command started. split.
  - intros transformer. apply pass_args_transform.
  - exact (run_children h filePath o s).
Qed.

(** ** C4: a failing pass *)

Lemma early_no_marker_output (tr : list event) :
  Forall is_early tr → MarkerOutput ∉ tr.
Proof. intros H Hin. by apply (proj1 (Forall_forall _ _) H) in Hin. Qed.

Lemma pass_no_marker_output (tr : list event) :
  Forall is_pass tr → MarkerOutput ∉ tr.
Proof. intros H Hin. by apply (proj1 (Forall_forall _ _) H) in Hin. Qed.

Lemma prepare_children (h : host) (o : options) (s : fs) :
  children (emitted (prepare h o s)) = [] ∧
  MarkerOutput ∉ emitted (prepare h o s).
Proof.
  pose proof (prepare_spec h o s) as Hp.
  destruct (result (prepare h o s)) as [p|e|c].
  - destruct Hp as (pre & -> & Hq). split.
    + by rewrite children_app, (quiet_children pre Hq).
    + apply early_no_marker_output, Forall_app_2;
        [by apply quiet_is_early|all_events].
  - split; [|by apply early_no_marker_output].
    induction Hp as [|ev l Hev _ IH]; [done|]. by destruct ev.
  - split; [|by apply early_no_marker_output].
    induction Hp as [|ev l Hev _ IH]; [done|]. by destruct ev.
Qed.

(** C4, at the input where the code fails it.  In local mode, when the
    child of the first pass fails and [fs.appendFileSync], handed the
    caught [Error] object, throws, the error of the append leaves the catch
    block of [transform]: [run] rejects with it and so does [bootstrap].
    The failure of the pass has been logged, but no pass is started after
    it and the marker output is never read. *)
Theorem C4_failing_pass_in_local_mode_ends_the_run
    (h : host) (o : options) (s : fs) (p : project)
    (err e : JS.error) (kept : option string) :
  let bin := jscodeshiftBin h in
  let command := pass_args h (sourceRoot p) (set_pages o (scope p)) "router" in
  let child := execa h bin command (disk (prepare h o s)) in
  result (prepare h o s) = Ret p →
  is_local h = true →
  child.1 = JS.Err err →
  fs_appendFileSync h (path_join h (dirname h) "./error.log") (JS.Object err)
    child.2 = Failed e kept →
  result (bootstrap h o s) = Throw e ∧
  children (emitted (bootstrap h o s)) = [Spawn bin command; Exited bin false] ∧
  LogError err ∈ emitted (bootstrap h o s) ∧
  MarkerOutput ∉ emitted (bootstrap h o s).
Proof.
  intros bin command child Hp Hlocal Hchild Happend.
  pose proof (transform_step h "router" (sourceRoot p)
                (set_pages o (scope p)) (disk (prepare h o s))) as Ht.
  cbv zeta in Ht. fold bin command child in Ht.
  unfold error_log in Ht. rewrite Hchild, Hlocal, Happend in Ht.
  pose proof (run_step h (sourceRoot p) (set_pages o (scope p))
                (disk (prepare h o s))) as Hr.
  cbv zeta in Hr. rewrite Ht in Hr. cbn [result disk emitted] in Hr.
  rewrite (bootstrap_after_prepare h o s p Hp). cbv zeta. rewrite Hr.
  cbn [result disk emitted JS.is_ok].
  destruct (prepare_children h o s) as [Hc Hm].
  split_and!.
  - reflexivity.
  - by rewrite children_app, Hc.
  - find_member.
  - rewrite elem_of_app. intros [?|Hin]; [done|]. not_member Hin.
Qed.

(** C4 on a host in local mode whose passes fail, on Node 14 or later. *)
Lemma C4_witness :
  result (bootstrap local_lab demo_options ∅) = Throw invalid_arg_type ∧
  children (emitted (bootstrap local_lab demo_options ∅)) =
    [Spawn (jscodeshiftBin local_lab)
       (pass_args local_lab "src"
          (set_pages demo_options "pages/index/index,pages/user/user,src/app")
          "router");
     Exited (jscodeshiftBin local_lab) false].
Proof.
  destruct (C4_failing_pass_in_local_mode_ends_the_run local_lab demo_options ∅
              demo_project demo_error invalid_arg_type None)
    as (Hr & Hc & _); [vm_compute; reflexivity..|].
  split; [exact Hr|exact Hc].
Defined.

(** ** C5: no project model, no run *)

(** C5.  When [new Project(projectDir)] throws, [bootstrap] ends in
    [process.exit(1)] with every file as it was, and has done nothing but
    query git, try the constructor and print: no config rewrite, no entry
    rewrite, no child process, no file written.  When the git check lets the
    run through, the last thing printed is the message of the error. *)
Theorem C5_fatal_error_exits_before_any_mutation
    (h : host) (o : options) (s : fs) (e : JS.error) :
  new_Project h (cwd h) s = JS.Err e →
  result (bootstrap h o s) = Exit 1 ∧
  disk (bootstrap h o s) = s ∧
  Forall is_quiet (emitted (bootstrap h o s)) ∧
  (result (gate h o s) = Ret tt →
   emitted (bootstrap h o s) =
     emitted (gate h o s) ++
     [NewProject (cwd h); Log [chalk h "red" (JS.message e)]]).
Proof.
  intros Hnew.
  destruct (prepare_no_project h o s e Hnew) as (Hr & Hd & Hq & Hl).
  rewrite bootstrap_split, (bind_Exit _ _ _ _ Hr). done.
Qed.

(** C5 on a host whose project has no build configuration. *)
Lemma C5_witness :
  result (bootstrap (demo_host (JS.Err demo_error)) demo_options ∅) = Exit 1 ∧
  disk (bootstrap (demo_host (JS.Err demo_error)) demo_options ∅) = ∅ ∧
  emitted (bootstrap (demo_host (JS.Err demo_error)) demo_options ∅) =
    [GitStatus; NewProject "/work/app";
     Log ["Command failed with exit code 1"]].
Proof.
  destruct (C5_fatal_error_exits_before_any_mutation
              (demo_host (JS.Err demo_error)) demo_options ∅ demo_error eq_refl)
    as (Hr & Hd & _ & Hl).
  split; [exact Hr|]. split; [exact Hd|].
  rewrite Hl; vm_compute; reflexivity.
Defined.

(** ** C6: the order of the phases *)

(** C6.  In every run that comes as far as the passes, the trace of
    [bootstrap] starts with: the git check and the construction of the
    project; the rewrite of the build configuration; the rewrite of the
    entry; [marker.start()]; the events of the passes.  When [run] returns,
    all three passes have been started and have finished; what follows is
    [marker.output()] and then only events of the babel-config templater
    and of the dependency reconciler, which are handed the marker set just
    read and start no child but commands of the package manager.  When
    [run] rejects, the trace ends with it: the marker output is never read.
    A run that stops before the passes starts none, reads no marker output
    and reaches neither collaborator. *)
Theorem C6_project_model_then_passes_then_marker_output
    (h : host) (o : options) (s : fs) :
  match result (prepare h o s) with
  | Ret p =>
      let passes :=
        run h (sourceRoot p) (set_pages o (scope p)) (disk (prepare h o s)) in
      ∃ pre : list event,
        Forall is_quiet pre ∧
        emitted (prepare h o s) =
          pre ++ [NewProject (cwd h); RewriteConfig; RewriteEntry; MarkerStart] ∧
        Forall is_pass (emitted passes) ∧
        match result passes with
        | Ret _ =>
            (∃ ok1 ok2 ok3 : bool,
               children (emitted passes) =
                 pass_events h (sourceRoot p) (set_pages o (scope p)) "router" ok1 ++
                 pass_events h (sourceRoot p) (set_pages o (scope p)) "taro-imports" ok2 ++
                 pass_events h (sourceRoot p) (set_pages o (scope p)) "page-config" ok3) ∧
            ∃ post : list event,
              emitted (bootstrap h o s) =
                emitted (prepare h o s) ++ emitted passes ++
                [MarkerOutput] ++ post ∧
              Forall is_late post ∧
              match marker_output h (disk passes) with
              | (JS.Ok dependenciesMarkers, s1) =>
                  let templater :=
                    checkBabelConfig h (cwd h) dependenciesMarkers s1 in
                  let reconciler :=
                    checkDependencies h (sourceRoot p) dependenciesMarkers
                      (disk templater) in
                  ∃ thanks : list event,
                    post = emitted templater ++ emitted reconciler ++ thanks
              | (JS.Err _, _) => post = []
              end
        | _ =>
            emitted (bootstrap h o s) = emitted (prepare h o s) ++ emitted passes
        end
  | _ =>
      emitted (bootstrap h o s) = emitted (prepare h o s) ∧
      Forall is_early (emitted (bootstrap h o s))
  end.
Proof.
  pose proof (prepare_spec h o s) as Hp.
  destruct (result (prepare h o s)) as [p|e|c] eqn:E.
  - destruct Hp as (pre & Hpre & Hq). cbv zeta.
    exists pre. split_and!; [done|done|apply run_is_pass|].
    rewrite (bootstrap_after_prepare h o s p E). cbv zeta.
    pose proof (run_returns h (sourceRoot p) (set_pages o (scope p))
                  (disk (prepare h o s))) as Hall.
    destruct (result (run h _ _ _)) as [[]|e|c]; cbn [emitted]; [|done..].
    split; [by apply Hall|].
    destruct (finish_spec h p
                (disk (run h (sourceRoot p) (set_pages o (scope p))
                         (disk (prepare h o s))))) as (post & Hpost & Hlate).
    exists post. rewrite Hpost. split_and!; [done|done|].
    rewrite finish_step in Hpost.
    destruct (marker_output h _) as [[m|e] s1]; cbv zeta in *;
      cbn [emitted app] in Hpost.
    + eexists. injection Hpost as <-. reflexivity.
    + by injection Hpost as <-.
  - rewrite bootstrap_stops_early by (by rewrite E). by split.
  - rewrite bootstrap_stops_early by (by rewrite E). by split.
Qed.

(** ** C7: the page scope *)

(** C7.  In a run that comes as far as the passes with the project [p],
    the children start with the passes, and the command line of every pass
    that is started ends with the same option [--pages=<scope>], where the
    scope is the page list of [p] followed by [<sourceRoot>/app], joined
    with commas.  All three passes are started when [run] returns; when the
    catch block of a failed pass throws, which takes local mode, the run
    ends there and the passes started up to then are its only children. *)
Theorem C7_same_page_scope_for_every_pass
    (h : host) (o : options) (s : fs) (p : project) :
  result (prepare h o s) = Ret p →
  let bin := jscodeshiftBin h in
  let pages_option :=
    "--pages=" +:+ JS.join "," (pages p ++ [sourceRoot p +:+ "/app"]) in
  let command (transformer : string) :=
    pass_args h (sourceRoot p) (no_pages o) transformer ++ [pages_option] in
  let started := children (emitted (bootstrap h o s)) in
  (∃ (ok1 ok2 ok3 : bool) (rest : list event),
     started =
       [Spawn bin (command "router"); Exited bin ok1;
        Spawn bin (command "taro-imports"); Exited bin ok2;
        Spawn bin (command "page-config"); Exited bin ok3] ++ rest) ∨
  (∃ (ok1 : bool) e,
     started =
       [Spawn bin (command "router"); Exited bin ok1;
        Spawn bin (command "taro-imports"); Exited bin false] ∧
     result (bootstrap h o s) = Throw e ∧ is_local h = true) ∨
  (∃ e,
     started = [Spawn bin (command "router"); Exited bin false] ∧
     result (bootstrap h o s) = Throw e ∧ is_local h = true).
Proof.
  intros Hp bin pages_option command started. subst started.
  assert (∀ t, pass_args h (sourceRoot p) (set_pages o (scope p)) t =
               command t) as Hcommand.
  { intros t. unfold command, pass_args.
    by rewrite getRunnerArgs_set_pages by apply scope_truthy. }
  destruct (prepare_children h o s) as [Hc _].
  rewrite (bootstrap_after_prepare h o s p Hp). cbv zeta.
  destruct (run_children h (sourceRoot p) (set_pages o (scope p))
              (disk (prepare h o s)))
    as [(ok1 & ok2 & ok3 & Hrun & Hres)
       |[(ok1 & e & Hrun & Hres & Hl)|(e & Hrun & Hres & Hl)]];
    unfold pass_events in Hrun; rewrite !Hcommand in Hrun.
  - left. exists ok1, ok2, ok3.
    destruct Hres as [-> | (e & -> & _)]; cbn [emitted].
    + eexists. by rewrite !children_app, Hc, Hrun.
    + exists []. by rewrite !children_app, Hc, Hrun.
  - right; left. exists ok1, e. rewrite Hres. cbn [result emitted].
    by rewrite !children_app, Hc, Hrun.
  - right; right. exists e. rewrite Hres. cbn [result emitted].
    by rewrite !children_app, Hc, Hrun.
Qed.

(** C7 on the demo host, outside local mode, and on a host in local mode
    whose first pass ends the run. *)
Lemma C7_witness :
  (∃ (ok1 ok2 ok3 : bool) (rest : list event),
     children (emitted (bootstrap demo demo_options ∅)) =
       [Spawn (jscodeshiftBin demo)
          (pass_args demo "src" demo_options "router" ++
           ["--pages=pages/index/index,pages/user/user,src/app"]);
        Exited (jscodeshiftBin demo) ok1;
        Spawn (jscodeshiftBin demo)
          (pass_args demo "src" demo_options "taro-imports" ++
           ["--pages=pages/index/index,pages/user/user,src/app"]);
        Exited (jscodeshiftBin demo) ok2;
        Spawn (jscodeshiftBin demo)
          (pass_args demo "src" demo_options "page-config" ++
           ["--pages=pages/index/index,pages/user/user,src/app"]);
        Exited (jscodeshiftBin demo) ok3] ++ rest) ∧
  children (emitted (bootstrap local_lab demo_options ∅)) =
    [Spawn (jscodeshiftBin local_lab)
       (pass_args local_lab "src" demo_options "router" ++
        ["--pages=pages/index/index,pages/user/user,src/app"]);
     Exited (jscodeshiftBin local_lab) false].
Proof.
  split.
  - destruct (C7_same_page_scope_for_every_pass demo demo_options ∅
                demo_project eq_refl)
      as [H|[(ok1 & e & _ & _ & Hl)|(e & _ & _ & Hl)]];
      [exact H|discriminate Hl..].
  - vm_compute. reflexivity.
Defined.

(** ** C1: the parameter of the babel template *)

(** C1, as stated, fails: the one parameter the template gets is not named
    [shouldEnableLegacyDecoratorSupport]. *)
Lemma C1_counterexample :
  ¬ ∃ (template : string) (b : bool),
      emitted (renderBabelConfig demo [("babel-plugin-const-enum", 2)] ∅) =
        [RenderFile template [("shouldEnableLegacyDecoratorSupport", b)]].
Proof. intros (template & b & H). vm_compute in H. discriminate H. Qed.

(** C1, amended.  For every marker set, [renderBabelConfig] renders the
    template [templates/babel.config.ejs] exactly once, with a data object
    of exactly one property, the boolean [shouldUseConstEnumPlugin], which
    is true exactly when the marker set counts [babel-plugin-const-enum]
    more than zero times. *)
Theorem C1_template_gets_shouldUseConstEnumPlugin
    (h : host) (dependenciesMarkers : markers) (s : fs) :
  ∃ b : bool,
    emitted (renderBabelConfig h dependenciesMarkers s) =
      [RenderFile (path_join h (dirname h) "templates/babel.config.ejs")
         [("shouldUseConstEnumPlugin", b)]] ∧
    (b = true ↔
     ∃ n : Z,
       JS.get dependenciesMarkers "babel-plugin-const-enum" = Some n ∧ 0 < n).
Proof.
  unfold renderBabelConfig, template_data, ask. cbn [emitted].
  eexists. split; [reflexivity|].
  destruct (JS.get dependenciesMarkers _) as [n|].
  - rewrite bool_decide_eq_true. split; [by eauto|]. by intros (? & [= ->] & ?).
  - split; [done|]. by intros (? & ? & ?).
Qed.

(** ** C9: an existing babel.config.js *)

(** C9.  When [babel.config.js] exists in the project directory,
    [checkBabelConfig] does nothing at all: no template is rendered, no file
    is written, the disk stays as it is.  And whenever it does write a
    file, that file is [babel.config.js], it did not exist, and what is
    written is the rendered template. *)
Theorem C9_existing_babel_config_is_kept
    (h : host) (projectDir : string) (dependenciesMarkers : markers) (s : fs) :
  let path := path_join h projectDir "babel.config.js" in
  (is_Some (s !! path) →
   checkBabelConfig h projectDir dependenciesMarkers s = Step (Ret tt) s []) ∧
  (∀ written source : string,
     WriteFile written source
       ∈ emitted (checkBabelConfig h projectDir dependenciesMarkers s) →
     written = path ∧
     s !! path = None ∧
     renderFile h (path_join h (dirname h) "templates/babel.config.ejs")
       (template_data dependenciesMarkers) s = JS.Ok source ∧
     disk (checkBabelConfig h projectDir dependenciesMarkers s) =
       <[path := source]> s).
Proof.
  intros path. rewrite checkBabelConfig_step. fold path. split.
  - by intros [c ->].
  - intros written source.
    destruct (s !! path) as [c|]; [by intros ?%elem_of_nil|].
    destruct (renderFile h _ _ s) as [src|e];
      [destruct (fs_writeFile h path src s)|]; cbn [emitted disk];
      intros Hin; repeat (apply elem_of_cons in Hin as [Hin|Hin]);
      try (by apply elem_of_nil in Hin); by simplify_eq.
Qed.

(** C9 on the demo host: with the file present, and with an empty disk. *)
Lemma C9_witness :
  checkBabelConfig demo "/work/app" []
    {["/work/app/babel.config.js" := "module.exports = { presets: [] };"]} =
    Step (Ret tt)
      {["/work/app/babel.config.js" := "module.exports = { presets: [] };"]} [] ∧
  disk (checkBabelConfig demo "/work/app" [] ∅) =
    {["/work/app/babel.config.js" := "module.exports = {};"]}.
Proof.
  split.
  - apply (proj1 (C9_existing_babel_config_is_kept demo "/work/app" [] _)).
    vm_compute. eauto.
  - apply (proj2 (C9_existing_babel_config_is_kept demo "/work/app" [] ∅)
             "/work/app/babel.config.js" "module.exports = {};").
    vm_compute. right. left.
Defined.

(** ** C10: the marker keys are installed as dev dependencies *)

(** C10.  When a manifest is found and the user picks npm or yarn, the
    driver first installs the regular dependencies; unless that command
    fails (its error then ends [checkDependencies]), it next runs the
    install command with [-D] on the names of the [dev] entries of the
    install registry followed by every key of the marker set. *)
Theorem C10_marker_keys_are_dev_installed
    (h : host) (targetDir : string) (dependenciesMarkers : markers) (s : fs)
    (packageJson : manifest) (theme bin : string) :
  readPkgUp h (path_join h (cwd h) targetDir) s = JS.Ok (Some packageJson) →
  prompt h s = JS.Ok theme →
  (theme = "Yes (use npm)" ∧ bin = "npm") ∨
  (theme = "Yes (use yarn)" ∧ bin = "yarn") →
  let installCommand := if decide (bin = "npm") then "install" else "add" in
  let pkgs :=
    (λ kv : string * (string * string), kv.1 +:+ "@" +:+ kv.2.2)
      <$> (scan h packageJson).1 in
  let commonInstallDeps :=
    name <$> filter (λ d, dev d = false) (install (taroDeps h)) in
  let devRegistry :=
    name <$> filter (λ d, dev d = true) (install (taroDeps h)) in
  match (execa h bin ([installCommand] ++ (pkgs ++ commonInstallDeps) ++
                      ["--registry"; registry_url]) s).1 with
  | JS.Ok _ =>
      Spawn bin ([installCommand; "-D"] ++
                 (devRegistry ++ JS.keys dependenciesMarkers) ++
                 ["--registry"; registry_url])
        ∈ emitted (checkDependencies h targetDir dependenciesMarkers s)
  | JS.Err e =>
      result (checkDependencies h targetDir dependenciesMarkers s) = Throw e
  end.
Proof.
  intros Hpkg Hprompt Hbin installCommand pkgs commonInstallDeps devRegistry.
  unfold checkDependencies, devInstallDeps. bind1.
  rewrite Hpkg. steps.
  subst pkgs. destruct (scan h packageJson) as [up depr]. cbn [fst].
  do 9 bind1. bind1. rewrite Hprompt. steps.
  destruct Hbin as [[-> ->] | [-> ->]];
    subst installCommand commonInstallDeps devRegistry;
    repeat first [ rewrite decide_True by reflexivity
                 | rewrite decide_False by discriminate ];
    steps; do 2 bind1;
    (destruct (execa h _ _ s) as [[[]|e] s1]; steps; [|reflexivity]);
    do 2 bind1; destruct (execa h _ _ s1) as [[[]|?] s2]; steps; find_member.
Qed.

(** C10 on the demo host, whose user picks npm. *)
Lemma C10_witness :
  Spawn "npm"
    ["install"; "-D"; "@tarojs/mini-runner"; "babel-plugin-const-enum";
     "--registry"; "https://registry.npmmirror.com/"]
    ∈ emitted (checkDependencies demo "src" [("babel-plugin-const-enum", 2)] ∅).
Proof.
  apply (C10_marker_keys_are_dev_installed demo "src"
           [("babel-plugin-const-enum", 2)] ∅ demo_manifest
           "Yes (use npm)" "npm" eq_refl eq_refl (or_introl (conj eq_refl eq_refl))).
Defined.

(** ** C3: what is marked for upgrade and for removal *)

Lemma get_set {V} (o : JS.obj V) (k k' : string) (v : V) :
  JS.get (JS.set o k v) k' = if decide (k = k') then Some v else JS.get o k'.
Proof.
  induction o as [|[k0 v0] o IH]; cbn [JS.set JS.get].
  - reflexivity.
  - destruct (decide (k0 = k)) as [->|Hk0]; cbn [JS.get].
    + by destruct (decide (k = k')).
    + rewrite IH. destruct (decide (k0 = k')) as [->|?]; [|done].
      by rewrite decide_False.
Qed.

Lemma scan_upgrade_spec (h : host) (deps : JS.obj string)
    (acc : JS.obj (string * string)) (k : string) :
  is_Some (JS.get (scan_upgrade h deps acc) k) ↔
  is_Some (JS.get acc k) ∨ (k ∈ upgrade (taroDeps h) ∧ wants_upgrade h deps k).
Proof.
  unfold scan_upgrade. revert acc.
  induction (upgrade (taroDeps h)) as [|d l IH]; intros acc; cbn [foldl].
  - rewrite elem_of_nil. tauto.
  - rewrite IH, elem_of_cons. clear IH. unfold wants_upgrade.
    destruct (JS.get deps d) as [r|] eqn:Hd.
    + destruct (JS.truthy r) eqn:Ht, (semverSatisfies h expectVersion r) eqn:Hs;
        cbn [andb negb]; rewrite ?get_set.
      * split; [by intuition|].
        intros [?|[[->|?] (r' & ? & ? & ?)]]; [by auto|congruence|by eauto 10].
      * destruct (decide (d = k)) as [->|?].
        -- split; [|by eauto]. intros _. right. by eauto 10.
        -- split; [by intuition|].
           intros [?|[[->|?] ?]]; [by auto|done|by auto].
      * split; [by intuition|].
        intros [?|[[->|?] (r' & ? & ? & ?)]]; [by auto|congruence|by eauto 10].
      * split; [by intuition|].
        intros [?|[[->|?] (r' & ? & ? & ?)]]; [by auto|congruence|by eauto 10].
    + split; [by intuition|].
      intros [?|[[->|?] (r' & ? & ? & ?)]]; [by auto|congruence|by eauto 10].
Qed.

Lemma scan_deprecated_spec (h : host) (deps : JS.obj string)
    (acc : list string) (k : string) :
  k ∈ scan_deprecated h deps acc ↔
  k ∈ acc ∨ (k ∈ deprecated (taroDeps h) ∧ declares deps k).
Proof.
  unfold scan_deprecated. revert acc.
  induction (deprecated (taroDeps h)) as [|d l IH]; intros acc; cbn [foldl].
  - rewrite elem_of_nil. tauto.
  - rewrite IH, elem_of_cons. clear IH. unfold declares.
    destruct (JS.get deps d) as [r|] eqn:Hd; [destruct (JS.truthy r) eqn:Ht|].
    + rewrite elem_of_app, list_elem_of_singleton. split.
      * intros [[?| ->]|[? ?]]; by eauto 10.
      * intros [?|[[->|?] ?]]; by auto.
    + split; [by intuition|].
      intros [?|[[->|?] (r' & ? & ?)]]; [by auto|congruence|by eauto 10].
    + split; [by intuition|].
      intros [?|[[->|?] (r' & ? & ?)]]; [by auto|congruence|by eauto 10].
Qed.

Lemma scan_fold_spec (h : host) (packageJson : manifest) (props : list string)
    (acc : JS.obj (string * string) * list string) (k : string) :
  let out :=
    foldl (λ acc property,
             match JS.get packageJson property with
             | None => acc
             | Some deps =>
                 (scan_upgrade h deps acc.1, scan_deprecated h deps acc.2)
             end) acc props in
  (is_Some (JS.get out.1 k) ↔
   is_Some (JS.get acc.1 k) ∨
   (k ∈ upgrade (taroDeps h) ∧
    ∃ property deps, property ∈ props ∧
      JS.get packageJson property = Some deps ∧ wants_upgrade h deps k)) ∧
  (k ∈ out.2 ↔
   k ∈ acc.2 ∨
   (k ∈ deprecated (taroDeps h) ∧
    ∃ property deps, property ∈ props ∧
      JS.get packageJson property = Some deps ∧ declares deps k)).
Proof.
  revert acc. induction props as [|property props IH]; intros acc; cbn [foldl].
  - split; (split; [by auto|]);
      by intros [?|(_ & ? & ? & []%elem_of_nil & _)].
  - cbv zeta in IH. rewrite !(proj1 (IH _)), !(proj2 (IH _)). clear IH.
    destruct (JS.get packageJson property) as [deps|] eqn:Hp; cbn [fst snd].
    + rewrite scan_upgrade_spec, scan_deprecated_spec. split; split.
      * intros [[?|[? ?]]|(? & q & d & ? & ? & ?)]; [by auto|..].
        -- right. split; [done|]. exists property, deps.
           by rewrite elem_of_cons; auto.
        -- right. split; [done|]. exists q, d. by rewrite elem_of_cons; auto.
      * intros [?|(? & q & d & [->|?]%elem_of_cons & ? & ?)]; [by auto|..].
        -- simplify_eq. by auto.
        -- right. split; [done|]. by exists q, d.
      * intros [[?|[? ?]]|(? & q & d & ? & ? & ?)]; [by auto|..].
        -- right. split; [done|]. exists property, deps.
           by rewrite elem_of_cons; auto.
        -- right. split; [done|]. exists q, d. by rewrite elem_of_cons; auto.
      * intros [?|(? & q & d & [->|?]%elem_of_cons & ? & ?)]; [by auto|..].
        -- simplify_eq. by auto.
        -- right. split; [done|]. by exists q, d.
    + split; split.
      * intros [?|(? & q & d & ? & ? & ?)]; [by auto|].
        right. split; [done|]. exists q, d. by rewrite elem_of_cons; auto.
      * intros [?|(? & q & d & [->|?]%elem_of_cons & ? & ?)];
          [by auto|congruence|].
        right. split; [done|]. by exists q, d.
      * intros [?|(? & q & d & ? & ? & ?)]; [by auto|].
        right. split; [done|]. exists q, d. by rewrite elem_of_cons; auto.
      * intros [?|(? & q & d & [->|?]%elem_of_cons & ? & ?)];
          [by auto|congruence|].
        right. split; [done|]. by exists q, d.
Qed.

(** What [scan] marks, for every host: a name of the upgrade registry is
    marked for upgrade exactly when some dependency property declares it
    with a non-empty range on which the call of [semverSatisfies] that
    [cli.js] makes is false; a name of the deprecated registry is marked
    for removal exactly when some dependency property declares it with a
    non-empty range. *)
Lemma scan_marks (h : host) (packageJson : manifest) (depName : string) :
  (depName ∈ upgrade (taroDeps h) →
   (is_Some (JS.get (scan h packageJson).1 depName) ↔
    ∃ property deps versionRange,
      property ∈ dependencyProperties ∧
      JS.get packageJson property = Some deps ∧
      JS.get deps depName = Some versionRange ∧
      JS.truthy versionRange = true ∧
      semverSatisfies h expectVersion versionRange = false)) ∧
  (depName ∈ deprecated (taroDeps h) →
   (depName ∈ (scan h packageJson).2 ↔
    ∃ property deps versionRange,
      property ∈ dependencyProperties ∧
      JS.get packageJson property = Some deps ∧
      JS.get deps depName = Some versionRange ∧
      JS.truthy versionRange = true)).
Proof.
  destruct (scan_fold_spec h packageJson dependencyProperties ([], []) depName)
    as [Hu Hd].
  cbv zeta in Hu, Hd. fold (scan h packageJson) in Hu, Hd. split.
  - intros Hin. rewrite Hu. unfold wants_upgrade. cbn [fst JS.get]. split.
    + intros [[? [=]]|(_ & q & d & ? & ? & r & ? & ? & ?)]. by eauto 10.
    + intros (q & d & r & ? & ? & ? & ? & ?). right. by eauto 10.
  - intros Hin. rewrite Hd. unfold declares. cbn [snd]. split.
    + intros [[]%elem_of_nil|(_ & q & d & ? & ? & r & ? & ?)]. by eauto 10.
    + intros (q & d & r & ? & ? & ? & ?). right. by eauto 10.
Qed.

(** Both marks are guarded by the truthiness of [deps[depName]]: a
    dependency listed with the empty range is marked neither for removal
    nor for upgrade. *)
Lemma empty_ranges_are_skipped :
  JS.get empty_ranges "dependencies" =
    Some [("nervjs", ""); ("@tarojs/taro", "")] ∧
  "nervjs" ∈ deprecated (taroDeps demo) ∧
  ("nervjs" ∉ (scan demo empty_ranges).2) ∧
  "@tarojs/taro" ∈ upgrade (taroDeps demo) ∧
  JS.get (scan demo empty_ranges).1 "@tarojs/taro" = None.
Proof.
  split_and!; try (vm_compute; reflexivity).
  - cbn. find_member.
  - vm_compute. by intros ?%elem_of_nil.
  - cbn. find_member.
Qed.

(** [semver] is asked whether the version ["^3.1.1"] satisfies the declared
    range.  That text is a range, not a version: the answer is false
    whatever the range. *)
Lemma satisfies_asked_the_wrong_way_round (range : string) :
  Semver.satisfies expectVersion range = false.
Proof. reflexivity. Qed.

(** C3, where the code fails it.  [checkDependencies] calls
    [semverSatisfies(expectVersion, versionRange)]: the expected range
    stands where the version belongs, and the package answers false
    whatever the declared range is.  On such a host what the manifest
    declares plays no part: a name of the upgrade registry is marked for
    upgrade as soon as some dependency property lists it with a range that
    is not empty, also when that range satisfies the expected minimum. *)
Theorem C3_listed_names_are_marked_whatever_their_range
    (h : host) (packageJson : manifest) (depName : string) :
  (∀ range, semverSatisfies h expectVersion range = false) →
  depName ∈ upgrade (taroDeps h) →
  (is_Some (JS.get (scan h packageJson).1 depName) ↔
   ∃ property deps versionRange,
     property ∈ dependencyProperties ∧
     JS.get packageJson property = Some deps ∧
     JS.get deps depName = Some versionRange ∧
     JS.truthy versionRange = true).
Proof.
  intros Hsemver Hin.
  rewrite (proj1 (scan_marks h packageJson depName) Hin). split.
  - intros (q & d & r & ? & ? & ? & ? & _). by eauto 10.
  - intros (q & d & r & ? & ? & ? & ?). exists q, d, r. by rewrite Hsemver.
Qed.

(** C3 on the manifest of a project that is on Taro 3 already: version
    3.2.0 satisfies the expected range, and [@tarojs/cli], declared at
    3.2.0, is marked for upgrade all the same, as is [@tarojs/taro],
    declared with the expected range itself. *)
Lemma C3_witness :
  Semver.satisfies "3.2.0" expectVersion = true ∧
  is_Some (JS.get (scan demo migrated_manifest).1 "@tarojs/cli") ∧
  JS.get (scan demo migrated_manifest).1 "@tarojs/taro" =
    Some ("^3.1.1", "^3.1.1").
Proof.
  split; [reflexivity|]. split; [|reflexivity].
  apply (C3_listed_names_are_marked_whatever_their_range demo
           migrated_manifest "@tarojs/cli").
  - intros range. reflexivity.
  - cbn. find_member.
  - exists "devDependencies", [("@tarojs/cli", "3.2.0")], "3.2.0".
    split_and!; try reflexivity. unfold dependencyProperties. find_member.
Defined.

(** ** C8: the passes are idempotent *)

Section PassesIdempotent.
Import Passes.

Context (legacy_pkg react_pkg react_default base_class : string)
        (ui_symbols : list string)
        (api_pkg factory : string)
        (is_entry : string → bool)
        (sibling_path : string → string).

Lemma expr_induction (P : expr → Prop) :
  P This →
  (∀ x, P (Id x)) →
  (∀ o p, P o → P (Member o p)) →
  (∀ f args, P f → Forall P args → P (Call f args)) →
  (∀ props, Forall (λ kv, P kv.2) props → P (Obj props)) →
  (∀ r, P (Lit r)) →
  ∀ e, P e.
Proof.
  intros HThis HId HMember HCall HObj HLit.
  fix IH 1. intros [|x|o p|f args|props|r].
  - exact HThis.
  - apply HId.
  - apply HMember, IH.
  - apply HCall; [apply IH|].
    exact ((fix go (l : list expr) : Forall P l :=
              match l with
              | [] => Forall_nil_2 P
              | a :: l' => Forall_cons_2 P a l' (IH a) (go l')
              end) args).
  - apply HObj.
    exact ((fix go (l : list (string * expr)) : Forall (λ kv, P kv.2) l :=
              match l with
              | [] => Forall_nil_2 _
              | kv :: l' => Forall_cons_2 (λ kv, P kv.2) kv l' (IH kv.2) (go l')
              end) props).
  - apply HLit.
Qed.

Lemma existsb_fmap_false {A B} (p : B → bool) (g : A → B) (l : list A) :
  Forall (λ a, p (g a) = false) l → existsb p (g <$> l) = false.
Proof. induction 1 as [|a l Ha _ IH]; [done|]. cbn. by rewrite Ha, IH. Qed.

(** *** router *)

Lemma router_expr_clean (e : expr) : uses_router (router_expr e) = false.
Proof.
  induction e as [|x|o p IH|f args IHf IHargs|props IH|r] using expr_induction;
    try reflexivity.
  - destruct o; cbn [router_expr]; try exact IH.
    + case_decide; cbn; [done|]. by rewrite bool_decide_eq_false_2.
    + cbn [router_expr] in IH. cbn [uses_router].
      destruct o; try exact IH; case_decide; exact IH.
  - cbn. rewrite IHf. cbn. by apply existsb_fmap_false.
  - cbn. apply (existsb_fmap_false (λ kv, uses_router kv.2)
                  (λ kv, (kv.1, router_expr kv.2))). exact IH.
Qed.

Lemma router_member_clean (m : member) :
  member_has uses_router (map_member router_expr m) = false.
Proof.
  destruct m as [s k v|k body]; cbn.
  - apply router_expr_clean.
  - apply existsb_fmap_false, Forall_forall. intros e _. apply router_expr_clean.
Qed.

Lemma router_class_clean (c : class) :
  existsb (member_has uses_router) (members (router_class factory c)) = false.
Proof.
  unfold router_class.
  destruct (existsb _ (members c)) eqn:E; [|exact E]. cbn [members].
  rewrite existsb_app. apply orb_false_iff. split.
  - by destruct (declares_instance c).
  - apply existsb_fmap_false, Forall_forall. intros m _. apply router_member_clean.
Qed.

Lemma router_file_clean (f : file) :
  file_uses_router (router_stmt factory <$> f) = false.
Proof.
  unfold file_uses_router.
  apply (existsb_fmap_false
           (λ s, match s with
                 | SClass _ c => existsb (member_has uses_router) (members c)
                 | _ => false
                 end)), Forall_forall.
  intros [] _; try reflexivity. apply router_class_clean.
Qed.

Lemma router_idempotent (path : string) (f : file) :
  tree (router api_pkg factory path (tree (router api_pkg factory path f))) =
  tree (router api_pkg factory path f).
Proof.
  unfold router at 2 3. destruct (file_uses_router f) eqn:E; cbn [tree].
  - unfold router.
    assert (file_uses_router
              (ensure_import api_pkg factory (router_stmt factory <$> f)) = false)
      as ->; [|done].
    unfold ensure_import. destruct (imports_named _ _ _).
    + apply router_file_clean.
    + cbn. apply router_file_clean.
  - unfold router. by rewrite E.
Qed.

(** *** taro-imports *)

Lemma detect_map (whole : file) (g : expr → expr) (s : stmt) :
  detect legacy_pkg base_class whole (map_stmt g s) =
  detect legacy_pkg base_class whole s.
Proof. by destruct s. Qed.

Lemma replace_has_new_shape (whole todo : file) (g : expr → expr)
    (T : string) (i : import) (accessed : bool) (rest : file) (Ti : string * import) :
  first_detected legacy_pkg base_class whole todo = Some Ti →
  has_new_shape react_pkg react_default
    (replace_detected legacy_pkg base_class whole
       (split_import legacy_pkg react_pkg react_default base_class ui_symbols
          T i accessed rest)
       (map_stmt g <$> todo)) = true.
Proof.
  induction todo as [|s todo IH]; [done|]. cbn [first_detected fmap list_fmap replace_detected].
  rewrite detect_map.
  destruct (detect legacy_pkg base_class whole s) as [T'|] eqn:D.
  - intros _. unfold split_import. cbn. by rewrite !bool_decide_eq_true_2.
  - intros H. specialize (IH H). unfold has_new_shape in *.
    cbn [existsb]. rewrite IH. apply orb_true_r.
Qed.

Lemma taro_imports_idempotent (path : string) (f : file) :
  tree (taro_imports legacy_pkg react_pkg react_default base_class ui_symbols path
          (tree (taro_imports legacy_pkg react_pkg react_default base_class
                   ui_symbols path f))) =
  tree (taro_imports legacy_pkg react_pkg react_default base_class ui_symbols
          path f).
Proof.
  unfold taro_imports at 2 3.
  destruct (has_new_shape react_pkg react_default f) eqn:E; cbn [tree].
  - unfold taro_imports. by rewrite E.
  - destruct (first_detected legacy_pkg base_class f f) as [[T i]|] eqn:D;
      cbn [tree].
    + unfold taro_imports. by rewrite (replace_has_new_shape _ _ _ _ _ _ _ _ D).
    + unfold taro_imports. by rewrite E, D.
Qed.

(** *** page-config *)

Lemma bind_nil_each {A B} (g : A → list B) (l : list A) :
  (∀ a, g a = []) → l ≫= g = [].
Proof. intros Hg. induction l as [|a l IH]; [done|]. cbn. by rewrite Hg, IH. Qed.

Lemma bind_bind_list {A B C} (k : A → list B) (g : B → list C) (l : list A) :
  (l ≫= k) ≫= g = l ≫= (λ a, k a ≫= g).
Proof.
  induction l as [|a l IH]; [done|]. cbn. by rewrite bind_app, IH.
Qed.

Lemma omap_bind_list {A B C} (g : B → option C) (k : A → list B) (l : list A) :
  omap g (l ≫= k) = l ≫= (λ a, omap g (k a)).
Proof.
  induction l as [|a l IH]; [done|]. cbn. by rewrite omap_app, IH.
Qed.

Lemma omap_as_bind {A B} (g : A → option B) (l : list A) :
  omap g l = l ≫= (λ a, option_list (g a)).
Proof.
  induction l as [|a l IH]; [done|]. cbn. rewrite IH. by destruct (g a).
Qed.

Lemma omap_filter_None {A B} (g : A → option B) (l : list A) :
  omap g (filter (λ a, g a = None) l) = [].
Proof.
  induction l as [|a l IH]; [done|]. rewrite filter_cons.
  case_decide as Ha; [|done]. cbn. by rewrite Ha.
Qed.

Lemma existsb_bind_list {A B} (p : B → bool) (k : A → list B) (l : list A) :
  existsb p (l ≫= k) = existsb (λ a, existsb p (k a)) l.
Proof.
  induction l as [|a l IH]; [done|]. cbn. by rewrite existsb_app, IH.
Qed.

Lemma existsb_ext {A} (p q : A → bool) (l : list A) :
  (∀ a, p a = q a) → existsb p l = existsb q l.
Proof. intros H. induction l as [|a l IH]; [done|]. cbn. by rewrite H, IH. Qed.

Lemma declares_class_without (c : component) (f : file) (n : string) :
  declares_class (f ≫= without_configs c) n = declares_class f n.
Proof.
  unfold declares_class. rewrite existsb_bind_list.
  apply existsb_ext. intros s.
  destruct c, s; cbn [without_configs];
    try (cbn; by rewrite ?orb_false_r).
  - case_decide; cbn; by rewrite ?orb_false_r.
  - by destruct (config_assign _ _).
Qed.

Lemma declares_function_without (c : component) (f : file) (n : string) :
  declares_function (f ≫= without_configs c) n = declares_function f n.
Proof.
  unfold declares_function. rewrite existsb_bind_list.
  apply existsb_ext. intros s.
  destruct c, s; cbn [without_configs];
    try (cbn; by rewrite ?orb_false_r).
  - case_decide; cbn; by rewrite ?orb_false_r.
  - by destruct (config_assign _ _).
Qed.

Lemma resolve_without (c : component) (f : file) :
  resolve (f ≫= without_configs c) = resolve f.
Proof.
  unfold resolve.
  assert (omap (default_of (f ≫= without_configs c)) (f ≫= without_configs c) =
          omap (default_of f) f) as ->; [|done].
  rewrite omap_bind_list, (omap_as_bind (default_of f)).
  apply list_bind_ext; [|done]. intros s.
  assert (∀ s', default_of (f ≫= without_configs c) s' = default_of f s') as Hd.
  { intros [| | | | |[]]; try done. cbn.
    by rewrite declares_class_without, declares_function_without. }
  destruct c, s; cbn [without_configs];
    try (cbn [omap list_omap]; rewrite Hd; by destruct (default_of f _)).
  - case_decide; cbn [omap list_omap]; rewrite Hd;
      [by destruct exported|by destruct (default_of f _)].
  - destruct (config_assign _ _); [done|].
    cbn [omap list_omap]. rewrite Hd. by destruct (default_of f _).
Qed.

Lemma configs_without (c : component) (f : file) :
  (f ≫= without_configs c) ≫= configs_in c = [].
Proof.
  rewrite bind_bind_list. apply bind_nil_each. intros s.
  destruct c, s; cbn [without_configs]; try (cbn; by rewrite ?app_nil_r).
  - case_decide as Hn; cbn [mbind list_bind configs_in cname members];
      rewrite ?app_nil_r.
    + rewrite decide_True by done. apply (omap_filter_None config_field).
    + by rewrite decide_False.
  - destruct (config_assign n (SAssign target value)) eqn:E; [done|].
    cbn [mbind list_bind configs_in]. by rewrite E.
Qed.

Lemma page_config_idempotent (path : string) (f : file) :
  tree (page_config is_entry sibling_path path
          (tree (page_config is_entry sibling_path path f))) =
  tree (page_config is_entry sibling_path path f).
Proof.
  unfold page_config at 2 3.
  destruct (is_entry path) eqn:E; cbn [tree].
  { unfold page_config. by rewrite E. }
  destruct (resolve f) as [c|] eqn:R; cbn [tree].
  2:{ unfold page_config. by rewrite E, R. }
  destruct (f ≫= configs_in c) as [|config [|]] eqn:C; cbn [tree].
  - unfold page_config. by rewrite E, R, C.
  - unfold page_config. by rewrite E, resolve_without, R, configs_without.
  - unfold page_config. by rewrite E, R, C.
Qed.

(** C8.  On the model of the three passes, applying a pass to its own
    output changes nothing: for each of [router], [taro-imports] and
    [page-config], every path and every tree [F], the tree of [P (P F)] is
    the tree of [P F]. *)
Theorem C8_every_pass_is_idempotent :
  Forall
    (λ P : string → file → output,
       ∀ (path : string) (F : file),
         tree (P path (tree (P path F))) = tree (P path F))
    (passes legacy_pkg react_pkg react_default base_class ui_symbols
       api_pkg factory is_entry sibling_path).
Proof.
  unfold passes. repeat apply Forall_cons_2; [..|apply Forall_nil_2].
  - apply router_idempotent.
  - apply taro_imports_idempotent.
  - apply page_config_idempotent.
Qed.

End PassesIdempotent.

(** * More of the driver *)

(** ** [ensureGitClean] *)

Lemma append_assoc (a b c : string) : (a +:+ b) +:+ c = a +:+ b +:+ c.
Proof.
  induction a as [|x a IH]; [done|]. exact (f_equal (String x) IH).
Qed.

Lemma prefix_append (p b : string) : String.prefix p (p +:+ b) = true.
Proof.
  induction p as [|x p IH]; [by destruct b|].
  change (String.prefix (String x p) (String x (p +:+ b)) = true).
  cbn [String.prefix]. by destruct (Ascii.ascii_dec x x).
Qed.

Lemma includes_append (a p b : string) : JS.includes (a +:+ p +:+ b) p = true.
Proof.
  induction a as [|x a IH].
  - change ("" +:+ p +:+ b) with (p +:+ b).
    assert (∀ t, JS.includes t p = String.prefix p t || JS.includes t p) as ->.
    { intros []; cbn [JS.includes]; by destruct (String.prefix p _). }
    by rewrite prefix_append.
  - change (JS.includes (String x (a +:+ p +:+ b)) p = true).
    cbn [JS.includes]. rewrite IH. apply orb_true_r.
Qed.

Lemma toLowerCase_append (a b : string) :
  JS.toLowerCase (a +:+ b) = JS.toLowerCase a +:+ JS.toLowerCase b.
Proof.
  induction a as [|x a IH]; [done|].
  exact (f_equal (String (JS.lower x)) IH).
Qed.

Lemma ensureGitClean_step (h : host) (s : fs) :
  ensureGitClean h s =
    if match isGitClean h s with
       | JS.Ok clean => clean
       | JS.Err err =>
           match JS.stderr err with
           | Some t =>
               JS.truthy t &&
               JS.includes (JS.toLowerCase t) "not a git repository"
           | None => false
           end
       end
    then Step (Ret tt) s [GitStatus]
    else
      Step (Exit 1) s
        [GitStatus;
         Log [chalk h "yellow" "Sorry that there are still some git changes"];
         Log [nl +:+ " you must commit or stash them firstly"]].
Proof.
  unfold ensureGitClean. bind1.
  destruct (isGitClean h s) as [[]|e]; steps; repeat bind1; try reflexivity.
  destruct (match JS.stderr e with Some _ => _ | None => _ end); steps;
    repeat bind1; reflexivity.
Qed.

(** X1.  [ensureGitClean] never throws and never touches a file.  It
    returns normally exactly when [isGitClean] resolves to true or rejects
    with a [stderr] that, in lower case, includes "not a git repository";
    in every other case, also when [isGitClean] rejects for another
    reason, it prints its two lines and ends the process with status 1. *)
Theorem X1_ensureGitClean_returns_or_exits_1 (h : host) (s : fs) :
  disk (ensureGitClean h s) = s ∧
  (result (ensureGitClean h s) = Ret tt ∧
     emitted (ensureGitClean h s) = [GitStatus] ∨
   result (ensureGitClean h s) = Exit 1 ∧
     emitted (ensureGitClean h s) =
       [GitStatus;
        Log [chalk h "yellow" "Sorry that there are still some git changes"];
        Log [nl +:+ " you must commit or stash them firstly"]]) ∧
  (result (ensureGitClean h s) = Ret tt ↔
   isGitClean h s = JS.Ok true ∨
   ∃ err t,
     isGitClean h s = JS.Err err ∧ JS.stderr err = Some t ∧
     JS.includes (JS.toLowerCase t) "not a git repository" = true).
Proof.
  rewrite ensureGitClean_step.
  destruct (isGitClean h s) as [[]|e]; cbn [disk result emitted].
  - split_and!; [done|by left|]. split; [by left|done].
  - split_and!; [done|by right|]. split; [done|].
    intros [?|(? & ? & ? & _)]; congruence.
  - destruct (JS.stderr e) as [t|] eqn:Ht.
    + destruct (JS.truthy t) eqn:Tt; cbn [andb].
      * destruct (JS.includes _ _) eqn:I; cbn [disk result emitted].
        -- split_and!; [done|by left|]. split; [|done]. intros _. right. eauto.
        -- split_and!; [done|by right|]. split; [done|].
           intros [?|(? & ? & ? & ? & ?)]; congruence.
      * cbn [disk result emitted]. split_and!; [done|by right|].
        split; [done|]. intros [?|(? & t' & ? & ? & I)]; [done|].
        simplify_eq. destruct t; [discriminate I|discriminate Tt].
    + cbn [disk result emitted]. split_and!; [done|by right|].
      split; [done|]. intros [?|(? & ? & ? & ? & ?)]; congruence.
Qed.

(** X2.  The test on [stderr] is blind to letter case and to what comes
    before and after: when [isGitClean] rejects and its [stderr] holds,
    anywhere, a run of characters whose lower case is "not a git
    repository", the run goes on. *)
Theorem X2_not_a_git_repository_in_any_case
    (h : host) (s : fs) (err : JS.error) (before phrase after : string) :
  isGitClean h s = JS.Err err →
  JS.stderr err = Some (before +:+ phrase +:+ after) →
  JS.toLowerCase phrase = "not a git repository" →
  ensureGitClean h s = Step (Ret tt) s [GitStatus].
Proof.
  intros Hgit Herr Hlow. rewrite ensureGitClean_step, Hgit, Herr.
  rewrite !toLowerCase_append, Hlow, includes_append.
  assert (JS.truthy (before +:+ phrase +:+ after) = true) as ->; [|done].
  apply Is_true_true, truthy_app_r.
  destruct phrase; [discriminate Hlow|done].
Qed.

Lemma X2_witness :
  ensureGitClean (lab None (JS.Err not_a_repository) (JS.Ok None) "No" failing_child) ∅ =
    Step (Ret tt) ∅ [GitStatus].
Proof.
  apply (X2_not_a_git_repository_in_any_case _ ∅ not_a_repository
           "fatal: " "Not a git repository"
           " (or any of the parent directories): .git");
    reflexivity.
Defined.

(** ** [bootstrap]: the git check and [process.exit] *)

Lemma gate_step (h : host) (o : options) (s : fs) :
  gate h o s =
    if is_local h then Step (Ret tt) s []
    else if force o then
      Step (Ret tt) s
        [Log [JS.join (EOL h) (replicate 3 (chalk h "yellow"
           "WARNING: You are trying to skip git status checking, please be careful"))]]
    else ensureGitClean h s.
Proof. unfold gate. by destruct (is_local h), (force o). Qed.

Lemma prepare_tail (h : host) (o : options) (s : fs) :
  ∃ tail,
    emitted (prepare h o s) = emitted (gate h o s) ++ tail ∧
    (GitStatus ∉ tail) ∧
    (∀ c, result (prepare h o s) = Exit c →
          c = 1 ∧ disk (prepare h o s) = s ∧ Forall is_quiet tail).
Proof.
  destruct (gate_spec h o s) as (Hd & Hq & Hr).
  unfold prepare. rewrite bind_unfold.
  destruct Hr as [-> | ->]; steps.
  2:{ exists []. rewrite app_nil_r. split_and!; [done|by intros ?%elem_of_nil|].
      by intros c [= <-]. }
  rewrite Hd. bind1.
  destruct (new_Project h (cwd h) s) as [p|e]; steps.
  2:{ repeat bind1. eexists. split_and!; [reflexivity| |].
      - by intros [?|[?|?%elem_of_nil]%elem_of_cons]%elem_of_cons.
      - intros c [= <-]. split_and!; [done..|]. all_events. }
  bind1.
  destruct (transformAndOverwriteConfig h p s) as [[p1|e] s1]; steps.
  2:{ eexists. split_and!; [reflexivity| |done].
      by intros [?|[?|?%elem_of_nil]%elem_of_cons]%elem_of_cons. }
  bind1.
  destruct (transformEntry h p1 s1) as [[p2|e] s2]; steps.
  2:{ eexists. split_and!; [reflexivity| |done].
      by intros [?|[?|[?|?%elem_of_nil]%elem_of_cons]%elem_of_cons]%elem_of_cons. }
  bind1.
  destruct (marker_start h s2) as [[[]|e] s3]; steps.
  - eexists. split_and!; [reflexivity| |done]. rewrite app_nil_r.
    by intros [?|[?|[?|[?|?%elem_of_nil]%elem_of_cons]%elem_of_cons]%elem_of_cons]%elem_of_cons.
  - eexists. split_and!; [reflexivity| |done].
    by intros [?|[?|[?|[?|?%elem_of_nil]%elem_of_cons]%elem_of_cons]%elem_of_cons]%elem_of_cons.
Qed.

Lemma pass_no_git (tr : list event) : Forall is_pass tr → GitStatus ∉ tr.
Proof. intros H Hin. by apply (proj1 (Forall_forall _ _) H) in Hin. Qed.

Lemma late_no_git (tr : list event) : Forall is_late tr → GitStatus ∉ tr.
Proof. intros H Hin. by apply (proj1 (Forall_forall _ _) H) in Hin. Qed.

Lemma checkDependencies_no_exit (h : host) (dir : string) (m : markers)
    (s : fs) (c : Z) :
  result (checkDependencies h dir m s) ≠ Exit c.
Proof.
  unfold checkDependencies. bind1.
  destruct (readPkgUp h _ s) as [[pj|]|e]; steps; [|done..].
  destruct (scan h pj) as [up depr].
  do 9 bind1. bind1.
  destruct (prompt h s) as [theme|e]; steps; [|done].
  destruct (decide (theme = _)); [|destruct (decide (theme = _))];
    ends; [| |done].
  - do 2 bind1. destruct (execa h _ _ s) as [[[]|?] s1]; steps; [|done].
    do 2 bind1. destruct (execa h _ _ s1) as [[[]|?] s2]; steps; [|done].
    bind1. by destruct (execa h _ _ s2) as [[[]|?] s3].
  - do 2 bind1. destruct (execa h _ _ s) as [[[]|?] s1]; steps; [|done].
    do 2 bind1. destruct (execa h _ _ s1) as [[[]|?] s2]; steps; [|done].
    bind1. by destruct (execa h _ _ s2) as [[[]|?] s3].
Qed.

Lemma finish_no_exit (h : host) (p : project) (s : fs) (c : Z) :
  result (finish h p s) ≠ Exit c.
Proof.
  unfold finish. bind1.
  destruct (marker_output h s) as [[m|e] s1]; steps; [|done].
  rewrite bind_unfold.
  destruct (checkBabelConfig_late h (cwd h) m s1) as [-> _]. steps.
  rewrite bind_unfold.
  pose proof (checkDependencies_no_exit h (sourceRoot p) m
                (disk (checkBabelConfig h (cwd h) m s1))) as Hd.
  destruct (result (checkDependencies h _ m _)) eqn:E; steps; [done|done|].
  by destruct (Hd code).
Qed.

(** X3.  [bootstrap] asks git for its state exactly when [NODE_ENV] is not
    [local] and [--force] is not given; in a local or forced run
    [isGitClean] is never called. *)
Theorem X3_git_is_asked_unless_local_or_forced
    (h : host) (o : options) (s : fs) :
  GitStatus ∈ emitted (bootstrap h o s) ↔ is_local h = false ∧ force o = false.
Proof.
  destruct (prepare_tail h o s) as (tail & Hpre & Htail & _).
  assert (GitStatus ∈ emitted (gate h o s) ↔
          is_local h = false ∧ force o = false) as Hgate.
  { rewrite gate_step. destruct (is_local h), (force o); cbn [emitted].
    - split; [by intros ?%elem_of_nil|by intros []].
    - split; [by intros ?%elem_of_nil|by intros []].
    - split; [|by intros []].
      by intros [?|?%elem_of_nil]%elem_of_cons.
    - split; [done|]. intros _. rewrite ensureGitClean_step.
      destruct (match isGitClean h s with JS.Ok _ => _ | JS.Err _ => _ end);
        apply list_elem_of_here. }
  rewrite <- Hgate.
  destruct (result (prepare h o s)) as [p|e|c] eqn:E.
  - rewrite (bootstrap_after_prepare h o s p E). cbv zeta.
    pose proof (pass_no_git _ (run_is_pass h (sourceRoot p)
                  (set_pages o (scope p)) (disk (prepare h o s)))) as Hrun.
    destruct (result (run h _ _ _)); cbn [emitted].
    + destruct (finish_spec h p
                  (disk (run h (sourceRoot p) (set_pages o (scope p))
                           (disk (prepare h o s))))) as (post & -> & Hlate).
      pose proof (late_no_git _ Hlate) as Hpost.
      rewrite Hpre, !elem_of_app, elem_of_cons. split; [|by auto].
      intros [[?|?]|[?|[?|?]]]; done.
    + rewrite Hpre, !elem_of_app. split; [|by auto]. intros [[?|?]|?]; done.
    + rewrite Hpre, !elem_of_app. split; [|by auto]. intros [[?|?]|?]; done.
  - rewrite bootstrap_stops_early by (by rewrite E). cbn [emitted].
    rewrite Hpre, elem_of_app. split; [|by auto]. by intros [?|?].
  - rewrite bootstrap_stops_early by (by rewrite E). cbn [emitted].
    rewrite Hpre, elem_of_app. split; [|by auto]. by intros [?|?].
Qed.

(** X4.  [bootstrap] ends in [process.exit] only with status 1 and only
    before it has changed anything: the disk is as it was, and all it has
    done is query git, try the [Project] constructor and print. *)
Theorem X4_exit_only_with_1_and_before_any_change
    (h : host) (o : options) (s : fs) (c : Z) :
  result (bootstrap h o s) = Exit c →
  c = 1 ∧
  disk (bootstrap h o s) = s ∧
  Forall is_quiet (emitted (bootstrap h o s)).
Proof.
  destruct (prepare_tail h o s) as (tail & Hpre & _ & Hexit).
  destruct (gate_spec h o s) as (_ & Hq & _).
  destruct (result (prepare h o s)) as [p|e|c'] eqn:E.
  - rewrite (bootstrap_after_prepare h o s p E). cbv zeta.
    destruct (run_ends h (sourceRoot p) (set_pages o (scope p))
                (disk (prepare h o s))) as [-> | (e & -> & _)];
      cbn [result]; [|done].
    intros H. by apply finish_no_exit in H.
  - rewrite bootstrap_stops_early by (by rewrite E). by rewrite E.
  - rewrite bootstrap_stops_early by (by rewrite E). rewrite E.
    cbn [result disk emitted]. intros [= <-].
    destruct (Hexit c' eq_refl) as (-> & Hd & Hqt).
    split_and!; [done..|]. rewrite Hpre. by apply Forall_app_2.
Qed.

Lemma X4_witness :
  result (bootstrap (lab None (JS.Ok false) (JS.Ok None) "No" failing_child)
            demo_options ∅) = Exit 1 ∧
  disk (bootstrap (lab None (JS.Ok false) (JS.Ok None) "No" failing_child)
          demo_options ∅) = ∅.
Proof.
  destruct (X4_exit_only_with_1_and_before_any_change
              (lab None (JS.Ok false) (JS.Ok None) "No" failing_child)
              demo_options ∅ 1) as (_ & Hd & _).
  - vm_compute. reflexivity.
  - split; [vm_compute; reflexivity|exact Hd].
Defined.

(** ** [getRunnerArgs] *)

(** X5.  Whatever the options, the arguments of jscodeshift start with the
    same thirteen, in the order in which [getRunnerArgs] pushes them:
    [--cpus] and its value are the fourth and fifth, the parser is the
    eighth and the transform path the thirteenth; options can only add
    arguments after them, four at most.  Without a [--cpus] option the
    value is the larger of 2 and a third of the cores, rounded up. *)
Theorem X5_runner_args_layout
    (h : host) (transformerPath parser : string) (o : options) :
  let args := getRunnerArgs h transformerPath parser o in
  let third := (Z.of_nat (os_cpus h) + 2) / 3 in
  take 13 args =
    ["--verbose=2"; "--ignore-pattern=**/node_modules"; "--quote=single";
     "--cpus"; default (pretty (Z.max 2 third)) (cpus o);
     "--no-babel";
     "--parser"; parser;
     "--parser-config"; path_join h (dirname h) "./babylon.config.json";
     "--extensions=tsx,ts,jsx,js";
     "--transform"; transformerPath] ∧
  (13 ≤ length args ≤ 17)%nat ∧
  2 ≤ Z.max 2 third ∧
  Z.of_nat (os_cpus h) ≤ 3 * Z.max 2 third ∧
  (Z.max 2 third = 2 ∨ 3 * (Z.max 2 third - 1) < Z.of_nat (os_cpus h)).
Proof.
  intros args third. subst args. unfold getRunnerArgs, babylonConfig.
  assert (2 ≤ Z.max 2 third ∧
          Z.of_nat (os_cpus h) ≤ 3 * Z.max 2 third ∧
          (Z.max 2 third = 2 ∨ 3 * (Z.max 2 third - 1) < Z.of_nat (os_cpus h)))
    as Hthird.
  { subst third.
    pose proof (Z.div_mod (Z.of_nat (os_cpus h) + 2) 3 ltac:(lia)) as Hdm.
    pose proof (Z.mod_pos_bound (Z.of_nat (os_cpus h) + 2) 3 ltac:(lia)) as Hb.
    lia. }
  fold third.
  destruct (gitignore o), (style o), (opt_pages o) as [[|]|];
    cbn [JS.truthy app take length];
    split_and!; try reflexivity; try lia; apply Hthird.
Qed.

(** ** [transform] and [run]: what happens to the disk *)

(** X6.  Outside local mode the driver itself writes nothing while the
    passes run: the disk after [run] is the disk the three children leave
    one after the other, also when they fail, and the trace holds no file
    write of the driver. *)
Theorem X6_run_leaves_the_disk_to_the_children
    (h : host) (filePath : string) (o : options) (s : fs) :
  is_local h = false →
  let child (t : string) (s : fs) : fs :=
    (execa h (jscodeshiftBin h) (pass_args h filePath o t) s).2 in
  disk (run h filePath o s) =
    child "page-config" (child "taro-imports" (child "router" s)) ∧
  ∀ path data,
    (AppendFile path data ∉ emitted (run h filePath o s)) ∧
    (WriteFile path data ∉ emitted (run h filePath o s)).
Proof.
  intros Hlocal child. rewrite run_step. cbv zeta.
  destruct (transform_not_local h "router" filePath o s Hlocal)
    as (R1 & D1 & N1).
  fold (child "router" s) in D1. rewrite R1, D1.
  set (s1 := child "router" s) in *.
  destruct (transform_not_local h "taro-imports" filePath o s1 Hlocal)
    as (R2 & D2 & N2).
  fold (child "taro-imports" s1) in D2. rewrite R2, D2.
  set (s2 := child "taro-imports" s1) in *.
  destruct (transform_not_local h "page-config" filePath o s2 Hlocal)
    as (R3 & D3 & N3).
  fold (child "page-config" s2) in D3. cbn [disk emitted].
  split; [exact D3|].
  intros path data. rewrite !elem_of_app.
  split; intros [Hin|[Hin|Hin]];
    first [ by apply (N1 path data) in Hin
          | by apply (N2 path data) in Hin
          | by apply (N3 path data) in Hin ].
Qed.

Lemma X6_witness :
  disk (run (lab None (JS.Ok true) (JS.Ok None) "No" failing_child)
          "src" demo_options ∅) =
    {["/work/app/src/app.js" := "touched"]}.
Proof.
  rewrite (proj1 (X6_run_leaves_the_disk_to_the_children
                    (lab None (JS.Ok true) (JS.Ok None) "No" failing_child)
                    "src" demo_options ∅ eq_refl)).
  vm_compute. reflexivity.
Defined.

(** X7.  In local mode the record of a failing pass is in the hands of
    [fs.appendFileSync], which is given the caught [Error] object itself.
    When that call throws, [transform] rejects with its error right after
    logging the failure of the pass: no text reaches [error.log] and no
    line feed is attempted.  When it goes through, and the append of the
    line feed does too, [transform] returns and [error.log] holds what it
    held when the child ended, then the text of the error, then a line
    feed; every other file is as the child left it. *)
Theorem X7_local_failure_is_appended_to_error_log
    (h : host) (t filePath : string) (o : options) (s : fs) (err : JS.error) :
  let child := execa h (jscodeshiftBin h) (pass_args h filePath o t) s in
  let errorLogFile := path_join h (dirname h) "./error.log" in
  let pass := transform h t "babylon" filePath o s in
  is_local h = true →
  child.1 = JS.Err err →
  match fs_appendFileSync h errorLogFile (JS.Object err) child.2 with
  | Failed e kept =>
      result pass = Throw e ∧
      disk pass = leave errorLogFile kept child.2 ∧
      (∃ head, emitted pass =
         head ++ [LogError err; AppendFileFailed errorLogFile (JS.Object err)]) ∧
      ∀ path data, AppendFile path data ∉ emitted pass
  | Done =>
      let logged :=
        <[errorLogFile :=
            default "" (child.2 !! errorLogFile) +:+ JS.error_text err]>
          child.2 in
      match fs_appendFileSync h errorLogFile (JS.Text nl) logged with
      | Done =>
          result pass = Ret tt ∧
          disk pass !! errorLogFile =
            Some (default "" (child.2 !! errorLogFile) +:+
                  JS.error_text err +:+ nl) ∧
          ∀ path, path ≠ errorLogFile → disk pass !! path = child.2 !! path
      | Failed e kept =>
          result pass = Throw e ∧ disk pass = leave errorLogFile kept logged
      end
  end.
Proof.
  intros child errorLogFile pass Hlocal Hchild. subst pass.
  pose proof (transform_step h t filePath o s) as Ht. cbv zeta in Ht.
  unfold error_log in Ht. fold child errorLogFile in Ht.
  rewrite Hchild, Hlocal in Ht.
  destruct (fs_appendFileSync h errorLogFile (JS.Object err) child.2).
  - cbv zeta.
    destruct (fs_appendFileSync h errorLogFile (JS.Text nl) _);
      rewrite Ht; cbn [result disk]; [|done].
    split_and!; [done| |].
    + rewrite lookup_insert_eq, lookup_insert_eq.
      change (default "" (Some ?x)) with x. by rewrite append_assoc.
    + intros path Hne. by rewrite !lookup_insert_ne.
  - rewrite Ht. cbn [result disk emitted]. split_and!; [done|done| |].
    + eexists. reflexivity.
    + intros path data Hin. destruct (is_local h); not_member Hin.
Qed.

(** X7 on a host in local mode whose passes fail: on Node 14 or later
    nothing is appended and the pass rejects; on a Node that turns the
    object into a string the error is recorded. *)
Lemma X7_witness :
  result (transform local_lab "router" "babylon" "src" demo_options
            {["/opt/taro2-to-3/bin/./error.log" := "old"]}) =
    Throw invalid_arg_type ∧
  disk (transform
          (with_fs local_lab (fs_writeFile local_lab) coercing_appendFileSync)
          "router" "babylon" "src" demo_options
          {["/opt/taro2-to-3/bin/./error.log" := "old"]})
    !! "/opt/taro2-to-3/bin/./error.log" =
    Some ("old" +:+ "Error: Command failed with exit code 1" +:+ nl).
Proof.
  split.
  - exact (proj1 (X7_local_failure_is_appended_to_error_log local_lab
                    "router" "src" demo_options
                    {["/opt/taro2-to-3/bin/./error.log" := "old"]} demo_error
                    eq_refl eq_refl)).
  - exact (proj1 (proj2 (X7_local_failure_is_appended_to_error_log
                    (with_fs local_lab (fs_writeFile local_lab)
                       coercing_appendFileSync)
                    "router" "src" demo_options
                    {["/opt/taro2-to-3/bin/./error.log" := "old"]} demo_error
                    eq_refl eq_refl))).
Defined.

(** ** [checkBabelConfig] *)

(** X8.  [checkBabelConfig] never throws and touches no file but
    [babel.config.js].  When the template cannot be rendered, nothing is
    written: the message of the error is printed and the disk stays as it
    is. *)
Theorem X8_checkBabelConfig_contains_its_errors
    (h : host) (projectDir : string) (dependenciesMarkers : markers) (s : fs) :
  let path := path_join h projectDir "babel.config.js" in
  let template := path_join h (dirname h) "templates/babel.config.ejs" in
  result (checkBabelConfig h projectDir dependenciesMarkers s) = Ret tt ∧
  (∀ other, other ≠ path →
     disk (checkBabelConfig h projectDir dependenciesMarkers s) !! other =
     s !! other) ∧
  (∀ err,
     s !! path = None →
     renderFile h template (template_data dependenciesMarkers) s = JS.Err err →
     checkBabelConfig h projectDir dependenciesMarkers s =
       Step (Ret tt) s
         [RenderFile template (template_data dependenciesMarkers);
          Log [chalk h "red" (JS.message err)]]).
Proof.
  intros path template. rewrite checkBabelConfig_step. fold path template.
  destruct (s !! path) as [c|] eqn:Hget.
  - split_and!; [done|done|]. by intros err [=].
  - destruct (renderFile h template _ s) as [src|e]; cbn [result disk].
    + destruct (fs_writeFile h path src s); cbn [result disk];
        (split_and!; [done| |by intros err _ [=]]); intros other Hne.
      * by apply lookup_insert_ne.
      * by apply lookup_leave_ne.
    + split_and!; [done|done|]. by intros err _ [= ->].
Qed.

Lemma X8_witness :
  checkBabelConfig (lab None (JS.Ok true) (JS.Ok None) "No" failing_child)
    "/work/app" [] ∅ =
    Step (Ret tt) ∅
      [RenderFile "/opt/taro2-to-3/bin/templates/babel.config.ejs"
         [("shouldUseConstEnumPlugin", false)];
       Log ["Command failed with exit code 1"]].
Proof.
  apply (proj2 (proj2 (X8_checkBabelConfig_contains_its_errors
                         (lab None (JS.Ok true) (JS.Ok None) "No" failing_child)
                         "/work/app" [] ∅)) demo_error);
    reflexivity.
Defined.

(** X9.  Whether a second run of [checkBabelConfig] does anything depends
    on what the first one leaves at [babel.config.js]: the file that was
    there, the rendered template when the write has gone through, what a
    rejected write has left, and nothing when the template could not be
    rendered.  With a file there the second run renders nothing, writes
    nothing and prints nothing; without one it renders the template
    again. *)
Theorem X9_checkBabelConfig_twice
    (h : host) (projectDir : string) (m m' : markers) (s : fs) :
  let path := path_join h projectDir "babel.config.js" in
  let template := path_join h (dirname h) "templates/babel.config.ejs" in
  let first := checkBabelConfig h projectDir m s in
  let second := checkBabelConfig h projectDir m' (disk first) in
  disk first !! path =
    match s !! path with
    | Some content => Some content
    | None =>
        match renderFile h template (template_data m) s with
        | JS.Ok source =>
            match fs_writeFile h path source s with
            | Done => Some source
            | Failed _ kept => kept
            end
        | JS.Err _ => None
        end
    end ∧
  (is_Some (disk first !! path) → second = Step (Ret tt) (disk first) []) ∧
  (disk first !! path = None →
   ∃ tr, emitted second = RenderFile template (template_data m') :: tr).
Proof.
  intros path template first second. split_and!.
  - subst first. rewrite checkBabelConfig_step. fold path template.
    destruct (s !! path) as [c|] eqn:Hget; [done|].
    destruct (renderFile h template _ s) as [src|e]; [|done].
    destruct (fs_writeFile h path src s); cbn [disk].
    + apply lookup_insert_eq.
    + apply lookup_leave.
  - intros [c Hc]. subst second. rewrite checkBabelConfig_step.
    fold path template. by rewrite Hc.
  - intros Hc. subst second. rewrite checkBabelConfig_step.
    fold path template. rewrite Hc.
    destruct (renderFile h template _ _) as [src|e]; [|by eexists].
    destruct (fs_writeFile h path src _); by eexists.
Qed.

(** X9 on the demo host, where the write goes through, and on the same
    host with a project directory that cannot be written to. *)
Lemma X9_witness :
  checkBabelConfig demo "/work/app" []
    (disk (checkBabelConfig demo "/work/app" [] ∅)) =
    Step (Ret tt) (disk (checkBabelConfig demo "/work/app" [] ∅)) [] ∧
  ∃ tr,
    emitted
      (checkBabelConfig (with_fs demo read_only strict_appendFileSync)
         "/work/app" []
         (disk (checkBabelConfig (with_fs demo read_only strict_appendFileSync)
                  "/work/app" [] ∅))) =
      RenderFile "/opt/taro2-to-3/bin/templates/babel.config.ejs"
        [("shouldUseConstEnumPlugin", false)] :: tr.
Proof.
  split.
  - apply (proj1 (proj2 (X9_checkBabelConfig_twice demo "/work/app" [] [] ∅))).
    vm_compute. eauto.
  - apply (proj2 (proj2 (X9_checkBabelConfig_twice
                           (with_fs demo read_only strict_appendFileSync)
                           "/work/app" [] [] ∅))).
    vm_compute. reflexivity.
Defined.

(** ** [checkDependencies]: the ways it ends *)

(** X10.  Without a manifest [checkDependencies] only says so: it prints
    one line, asks the user nothing, starts no process and returns.  An
    error of [readPkgUp] is not caught: it ends [checkDependencies] at
    once. *)
Theorem X10_no_manifest_no_reconciliation
    (h : host) (targetDir : string) (dependenciesMarkers : markers) (s : fs) :
  let dir := path_join h (cwd h) targetDir in
  (readPkgUp h dir s = JS.Ok None →
   checkDependencies h targetDir dependenciesMarkers s =
     Step (Ret tt) s [ReadPkgUp dir; Log ["We didn't find your package.json"]]) ∧
  (∀ err,
     readPkgUp h dir s = JS.Err err →
     checkDependencies h targetDir dependenciesMarkers s =
       Step (Throw err) s [ReadPkgUp dir]).
Proof.
  intros dir. split.
  - intros H. unfold checkDependencies. bind1. fold dir. by rewrite H.
  - intros err H. unfold checkDependencies. bind1. fold dir. by rewrite H.
Qed.

Lemma X10_witness :
  checkDependencies (lab None (JS.Ok true) (JS.Ok None) "No" failing_child)
    "src" [] ∅ =
    Step (Ret tt) ∅
      [ReadPkgUp "/work/app/src"; Log ["We didn't find your package.json"]].
Proof.
  apply (proj1 (X10_no_manifest_no_reconciliation
                  (lab None (JS.Ok true) (JS.Ok None) "No" failing_child)
                  "src" [] ∅)).
  reflexivity.
Defined.

(** X11.  A user who picks neither "Yes (use npm)" nor "Yes (use yarn)"
    gets the report and nothing else: no process is started, no file is
    touched, and the prompt is the last thing that happens. *)
Theorem X11_declined_means_nothing_is_installed
    (h : host) (targetDir : string) (dependenciesMarkers : markers) (s : fs)
    (packageJson : manifest) (theme : string) :
  readPkgUp h (path_join h (cwd h) targetDir) s = JS.Ok (Some packageJson) →
  prompt h s = JS.Ok theme →
  theme ≠ "Yes (use npm)" →
  theme ≠ "Yes (use yarn)" →
  result (checkDependencies h targetDir dependenciesMarkers s) = Ret tt ∧
  disk (checkDependencies h targetDir dependenciesMarkers s) = s ∧
  children (emitted (checkDependencies h targetDir dependenciesMarkers s)) = [] ∧
  last (emitted (checkDependencies h targetDir dependenciesMarkers s)) =
    Some Prompt.
Proof.
  intros Hpkg Hprompt Hnpm Hyarn.
  unfold checkDependencies. bind1. rewrite Hpkg. steps.
  destruct (scan h packageJson) as [up depr].
  do 9 bind1. bind1. rewrite Hprompt. steps.
  rewrite !decide_False by done. ends.
  split_and!; reflexivity.
Qed.

Lemma X11_witness :
  result (checkDependencies
            (lab None (JS.Ok true) (JS.Ok (Some demo_manifest)) "No" failing_child)
            "src" [] ∅) = Ret tt ∧
  children (emitted (checkDependencies
            (lab None (JS.Ok true) (JS.Ok (Some demo_manifest)) "No" failing_child)
            "src" [] ∅)) = [].
Proof.
  destruct (X11_declined_means_nothing_is_installed
              (lab None (JS.Ok true) (JS.Ok (Some demo_manifest)) "No" failing_child)
              "src" [] ∅ demo_manifest "No") as (Hr & _ & Hc & _);
    [reflexivity|reflexivity|discriminate|discriminate|].
  by split.
Defined.

(** X12.  After an opt-in the three commands run in this order: install
    the upgrades and the regular dependencies, install the dev
    dependencies with [-D], uninstall the deprecated ones.  Each runs only
    if the one before it succeeded, on the disk that one left; the first
    failure is thrown on, uncaught.  The uninstall command is issued
    whenever both installs succeeded, also with no package to uninstall. *)
Theorem X12_three_commands_in_order
    (h : host) (targetDir : string) (dependenciesMarkers : markers) (s : fs)
    (packageJson : manifest) (theme bin : string) :
  readPkgUp h (path_join h (cwd h) targetDir) s = JS.Ok (Some packageJson) →
  prompt h s = JS.Ok theme →
  (theme = "Yes (use npm)" ∧ bin = "npm") ∨
  (theme = "Yes (use yarn)" ∧ bin = "yarn") →
  let installCommand := if decide (bin = "npm") then "install" else "add" in
  let uninstallCommand := if decide (bin = "npm") then "uninstall" else "remove" in
  let pkgs :=
    (λ kv : string * (string * string), kv.1 +:+ "@" +:+ kv.2.2)
      <$> (scan h packageJson).1 in
  let commonInstallDeps :=
    name <$> filter (λ d, dev d = false) (install (taroDeps h)) in
  let first :=
    [installCommand] ++ (pkgs ++ commonInstallDeps) ++
    ["--registry"; registry_url] in
  let second :=
    [installCommand; "-D"] ++ devInstallDeps h dependenciesMarkers ++
    ["--registry"; registry_url] in
  let third := [uninstallCommand] ++ (scan h packageJson).2 in
  let r1 := execa h bin first s in
  let r2 := execa h bin second r1.2 in
  let r3 := execa h bin third r2.2 in
  let out := checkDependencies h targetDir dependenciesMarkers s in
  children (emitted out) =
    [Spawn bin first; Exited bin (JS.is_ok r1.1)] ++
    (if JS.is_ok r1.1 then
       [Spawn bin second; Exited bin (JS.is_ok r2.1)] ++
       (if JS.is_ok r2.1 then [Spawn bin third; Exited bin (JS.is_ok r3.1)]
        else [])
     else []) ∧
  result out =
    match r1.1, r2.1 with
    | JS.Err err, _ => Throw err
    | JS.Ok _, JS.Err err => Throw err
    | JS.Ok _, JS.Ok _ => of_result r3.1
    end ∧
  disk out =
    if JS.is_ok r1.1 then if JS.is_ok r2.1 then r3.2 else r2.2 else r1.2.
Proof.
  intros Hpkg Hprompt Hbin installCommand uninstallCommand pkgs
    commonInstallDeps first second third r1 r2 r3 out.
  subst out r3 r2 r1 third second first pkgs.
  unfold checkDependencies. bind1. rewrite Hpkg. steps.
  destruct (scan h packageJson) as [up depr]. cbn [fst snd].
  do 9 bind1. bind1. rewrite Hprompt. steps.
  destruct Hbin as [[-> ->] | [-> ->]];
    subst installCommand uninstallCommand commonInstallDeps;
    repeat first [ rewrite decide_True by reflexivity
                 | rewrite decide_False by discriminate ];
    steps; do 2 bind1;
    (destruct (execa h _ _ s) as [[[]|e1] s1]; steps;
       [|split_and!; reflexivity]);
    do 2 bind1;
    (destruct (execa h _ _ s1) as [[[]|e2] s2]; steps;
       [|split_and!; reflexivity]);
    bind1; ends;
    destruct (execa h _ _ s2) as [[[]|e3] s3]; steps;
    split_and!; reflexivity.
Qed.

Lemma X12_witness :
  disk (checkDependencies
          (lab None (JS.Ok true) (JS.Ok (Some [])) "Yes (use yarn)" recording_child)
          "src" [] ∅) =
    {["/log" :=
        "yarn add react --registry https://registry.npmmirror.com/;" +:+
        "yarn add -D @tarojs/mini-runner --registry https://registry.npmmirror.com/;" +:+
        "yarn remove;"]}.
Proof.
  rewrite (proj2 (proj2 (X12_three_commands_in_order
             (lab None (JS.Ok true) (JS.Ok (Some [])) "Yes (use yarn)" recording_child)
             "src" [] ∅ [] "Yes (use yarn)" "yarn" eq_refl eq_refl
             (or_intror (conj eq_refl eq_refl))))).
  vm_compute. reflexivity.
Defined.

(** ** [checkDependencies]: the scan of the manifest *)

Lemma keys_set {V} (o : JS.obj V) (k k' : string) (v : V) :
  k' ∈ JS.keys (JS.set o k v) ↔ k' = k ∨ k' ∈ JS.keys o.
Proof.
  unfold JS.keys. induction o as [|[k0 v0] o IH]; cbn [JS.set].
  - rewrite !fmap_cons, fmap_nil, elem_of_cons, elem_of_nil. cbn. tauto.
  - destruct (decide (k0 = k)) as [->|Hne];
      rewrite !fmap_cons, !elem_of_cons; cbn [fst]; [tauto|].
    rewrite IH. tauto.
Qed.

Lemma keys_set_NoDup {V} (o : JS.obj V) (k : string) (v : V) :
  NoDup (JS.keys o) → NoDup (JS.keys (JS.set o k v)).
Proof.
  induction o as [|[k0 v0] o IH]; cbn [JS.set].
  - intros _. apply NoDup_singleton.
  - unfold JS.keys in *. rewrite fmap_cons. cbn [fst].
    intros [Hk0 Ho]%NoDup_cons.
    destruct (decide (k0 = k)) as [->|Hne]; rewrite fmap_cons; cbn [fst];
      apply NoDup_cons; split; [done|done| |by apply IH].
    intros [?|?]%(keys_set o k k0 v); done.
Qed.

Lemma elem_of_set {V} (o : JS.obj V) (k : string) (v : V) (x : string * V) :
  x ∈ JS.set o k v → x = (k, v) ∨ x ∈ o.
Proof.
  induction o as [|[k0 v0] o IH]; cbn [JS.set].
  - intros [->|[]%elem_of_nil]%elem_of_cons. by left.
  - destruct (decide (k0 = k)) as [->|Hne].
    + intros [->|?]%elem_of_cons; [by left|]. right. by apply elem_of_cons; right.
    + intros [->|[->|?]%IH]%elem_of_cons.
      * right. apply list_elem_of_here.
      * by left.
      * right. by apply elem_of_cons; right.
Qed.

Lemma scan_upgrade_preserves (h : host) (deps : JS.obj string)
    (P : JS.obj (string * string) → Prop) :
  (∀ acc k r,
     P acc → k ∈ upgrade (taroDeps h) → JS.get deps k = Some r →
     JS.truthy r = true → semverSatisfies h expectVersion r = false →
     P (JS.set acc k (r, expectVersion))) →
  ∀ acc, P acc → P (scan_upgrade h deps acc).
Proof.
  intros Hset. unfold scan_upgrade.
  assert (∀ l acc, (∀ k, k ∈ l → k ∈ upgrade (taroDeps h)) → P acc →
            P (foldl (λ acc depName,
                 match JS.get deps depName with
                 | Some versionRange =>
                     if JS.truthy versionRange &&
                        negb (semverSatisfies h expectVersion versionRange)
                     then JS.set acc depName (versionRange, expectVersion)
                     else acc
                 | None => acc
                 end) acc l)) as Hfold; [|by eauto].
  induction l as [|k l IH]; intros acc Hl Hacc; [done|]. cbn [foldl].
  apply IH; [by intros; apply Hl, elem_of_cons; right|].
  destruct (JS.get deps k) as [r|] eqn:Hk; [|done].
  destruct (JS.truthy r) eqn:Ht; [|done].
  destruct (semverSatisfies h expectVersion r) eqn:Hs; [done|].
  cbn [andb negb]. apply Hset; try done. apply Hl, list_elem_of_here.
Qed.

Lemma scan_preserves (h : host) (packageJson : manifest)
    (P : JS.obj (string * string) → Prop) :
  (∀ acc property deps k r,
     P acc → property ∈ dependencyProperties →
     JS.get packageJson property = Some deps →
     k ∈ upgrade (taroDeps h) → JS.get deps k = Some r →
     JS.truthy r = true → semverSatisfies h expectVersion r = false →
     P (JS.set acc k (r, expectVersion))) →
  P [] → P (scan h packageJson).1.
Proof.
  intros Hset Hnil. unfold scan.
  assert (∀ props acc, (∀ q, q ∈ props → q ∈ dependencyProperties) → P acc.1 →
            P (foldl (λ acc property,
                 match JS.get packageJson property with
                 | None => acc
                 | Some deps =>
                     (scan_upgrade h deps acc.1, scan_deprecated h deps acc.2)
                 end) acc props).1) as Hfold; [|by apply Hfold].
  induction props as [|q props IH]; intros acc Hprops Hacc; [done|].
  cbn [foldl]. apply IH; [by intros; apply Hprops, elem_of_cons; right|].
  destruct (JS.get packageJson q) as [deps|] eqn:Hq; [|done]. cbn [fst].
  apply scan_upgrade_preserves; [|done].
  intros acc' k r ? ? ? ? ?. eapply Hset; try done.
  apply Hprops, list_elem_of_here.
Qed.

(** X13.  Every entry of [upgradeDeps] is sound: its key is a name of the
    upgrade registry, its target is the expected version [^3.1.1], and its
    "from" is a non-empty range that some dependency property of the
    manifest declares for that name and that fails
    [semverSatisfies(expectVersion, range)]. *)
Theorem X13_upgrade_entries_come_from_the_manifest
    (h : host) (packageJson : manifest) (depName from to : string) :
  (depName, (from, to)) ∈ (scan h packageJson).1 →
  to = "^3.1.1" ∧
  depName ∈ upgrade (taroDeps h) ∧
  ∃ property deps,
    property ∈ dependencyProperties ∧
    JS.get packageJson property = Some deps ∧
    JS.get deps depName = Some from ∧
    JS.truthy from = true ∧
    semverSatisfies h expectVersion from = false.
Proof.
  revert depName from to.
  apply (scan_preserves h packageJson
           (λ acc, ∀ depName from to, (depName, (from, to)) ∈ acc → _)).
  - intros acc property deps k r Hacc Hp Hd Hk Hr Ht Hs depName from to
      [[= -> -> ->]|Hin]%elem_of_set; [|by apply Hacc].
    split_and!; [done..|]. by exists property, deps.
  - by intros ? ? ? ?%elem_of_nil.
Qed.

Lemma X13_witness :
  ∃ property deps,
    property ∈ dependencyProperties ∧
    JS.get demo_manifest property = Some deps ∧
    JS.get deps "@tarojs/taro" = Some "2.2.7".
Proof.
  destruct (X13_upgrade_entries_come_from_the_manifest demo demo_manifest
              "@tarojs/taro" "2.2.7" "^3.1.1")
    as (_ & _ & property & deps & H1 & H2 & H3 & _).
  - vm_compute. apply list_elem_of_here.
  - by exists property, deps.
Defined.

(** X14.  A dependency is upgraded once: the keys of [upgradeDeps] are
    pairwise distinct, however many dependency properties declare the same
    name. *)
Theorem X14_upgrade_keys_are_distinct (h : host) (packageJson : manifest) :
  NoDup (JS.keys (scan h packageJson).1).
Proof.
  apply (scan_preserves h packageJson (λ acc, NoDup (JS.keys acc))).
  - intros. by apply keys_set_NoDup.
  - apply NoDup_nil_2.
Qed.

Lemma scan_deprecated_closed (h : host) (deps : JS.obj string)
    (acc : list string) :
  scan_deprecated h deps acc =
    acc ++ List.filter (listed deps) (deprecated (taroDeps h)).
Proof.
  unfold scan_deprecated. revert acc.
  induction (deprecated (taroDeps h)) as [|k l IH]; intros acc; cbn [foldl].
  - by rewrite app_nil_r.
  - rewrite IH. cbn [List.filter]. unfold listed at 2.
    destruct (JS.get deps k) as [r|]; [destruct (JS.truthy r)|];
      by rewrite <- ?app_assoc.
Qed.

(** X15.  [deprecatedDeps] is built property by property, in the order of
    [dependencyProperties]: each property that is present contributes, in
    registry order, the deprecated names it lists with a non-empty range.
    A name that two properties list is therefore collected, and later
    handed to the uninstall command, twice. *)
Theorem X15_deprecated_are_collected_per_property
    (h : host) (packageJson : manifest) :
  (scan h packageJson).2 =
    dependencyProperties ≫= λ property,
      match JS.get packageJson property with
      | None => []
      | Some deps => List.filter (listed deps) (deprecated (taroDeps h))
      end.
Proof.
  unfold scan.
  assert (∀ props acc,
            (foldl (λ acc property,
               match JS.get packageJson property with
               | None => acc
               | Some deps =>
                   (scan_upgrade h deps acc.1, scan_deprecated h deps acc.2)
               end) acc props).2 =
            acc.2 ++
            (props ≫= λ property,
               match JS.get packageJson property with
               | None => []
               | Some deps => List.filter (listed deps) (deprecated (taroDeps h))
               end)) as Hfold; [|by rewrite Hfold].
  induction props as [|q props IH]; intros acc; cbn [foldl].
  - by rewrite app_nil_r.
  - rewrite IH, bind_cons.
    destruct (JS.get packageJson q) as [deps|]; cbn [snd]; [|done].
    by rewrite scan_deprecated_closed, <- app_assoc.
Qed.

Lemma scan_ext_fold (h : host) (pj1 pj2 : manifest) (props : list string)
    (acc : JS.obj (string * string) * list string) :
  (∀ q, q ∈ props → JS.get pj1 q = JS.get pj2 q) →
  foldl (λ acc property,
           match JS.get pj1 property with
           | None => acc
           | Some deps => (scan_upgrade h deps acc.1, scan_deprecated h deps acc.2)
           end) acc props =
  foldl (λ acc property,
           match JS.get pj2 property with
           | None => acc
           | Some deps => (scan_upgrade h deps acc.1, scan_deprecated h deps acc.2)
           end) acc props.
Proof.
  revert acc. induction props as [|q props IH]; intros acc Hagree; [done|].
  cbn [foldl]. rewrite (Hagree q) by apply list_elem_of_here.
  apply IH. intros q' Hq'. by apply Hagree, elem_of_cons; right.
Qed.

(** X16.  The scan looks at the five dependency properties and at nothing
    else: two manifests that agree on [dependencies], [devDependencies],
    [clientDependencies], [isomorphicDependencies] and [buildDependencies]
    give the same upgrades and the same removals, whatever else they hold
    ([peerDependencies], [optionalDependencies], ...). *)
Theorem X16_only_the_five_properties_count
    (h : host) (pj1 pj2 : manifest) :
  (∀ property, property ∈ dependencyProperties →
               JS.get pj1 property = JS.get pj2 property) →
  scan h pj1 = scan h pj2.
Proof. intros Hagree. unfold scan. by apply scan_ext_fold. Qed.

Lemma X16_witness :
  scan demo (("peerDependencies", [("nervjs", "^1.5.6")]) :: demo_manifest) =
  scan demo demo_manifest.
Proof.
  apply X16_only_the_five_properties_count.
  intros property Hin. cbn [JS.get].
  rewrite decide_False; [done|]. intros <-.
  unfold dependencyProperties in Hin. not_member Hin.
Defined.

Lemma scan_upgrade_get (h : host) (deps : JS.obj string)
    (acc : JS.obj (string * string)) (k : string) :
  JS.get (scan_upgrade h deps acc) k =
    match JS.get deps k with
    | Some r =>
        if JS.truthy r && negb (semverSatisfies h expectVersion r) &&
           bool_decide (k ∈ upgrade (taroDeps h))
        then Some (r, expectVersion) else JS.get acc k
    | None => JS.get acc k
    end.
Proof.
  unfold scan_upgrade. revert acc.
  induction (upgrade (taroDeps h)) as [|d l IH]; intros acc; cbn [foldl].
  - rewrite bool_decide_eq_false_2 by apply not_elem_of_nil.
    destruct (JS.get deps k); by rewrite ?andb_false_r.
  - rewrite IH. clear IH.
    destruct (JS.get deps k) as [r|] eqn:Hk.
    + destruct (decide (d = k)) as [->|Hne].
      * rewrite Hk, (bool_decide_eq_true_2 (k ∈ k :: l)) by apply list_elem_of_here.
        rewrite andb_true_r.
        destruct (JS.truthy r && negb (semverSatisfies h expectVersion r));
          cbn [andb]; [|done].
        rewrite get_set, decide_True by done. by destruct (bool_decide _).
      * assert (bool_decide (k ∈ d :: l) = bool_decide (k ∈ l)) as ->.
        { apply bool_decide_ext. rewrite elem_of_cons.
          split; [by intros [?|?]|by right]. }
        destruct (_ && bool_decide (k ∈ l)); [done|].
        destruct (JS.get deps d) as [r'|]; [|done].
        destruct (_ && _); [|done]. by rewrite get_set, decide_False.
    + destruct (JS.get deps d) as [r'|] eqn:Hd; [|done].
      destruct (_ && _); [|done].
      rewrite get_set. case_decide; [congruence|done].
Qed.

(** X17.  When several dependency properties ask for the upgrade of one
    name, the last of them in the order of [dependencyProperties] decides
    the "from" range that is recorded and shown: the entry of a name is the
    range of the last property that lists it with a non-empty,
    unsatisfying range. *)
Theorem X17_the_last_property_decides_the_shown_range
    (h : host) (packageJson : manifest) (depName : string) :
  depName ∈ upgrade (taroDeps h) →
  JS.get (scan h packageJson).1 depName =
    (λ range, (range, "^3.1.1")) <$>
    last (omap (λ property,
                  deps ← JS.get packageJson property;
                  range ← JS.get deps depName;
                  if JS.truthy range &&
                     negb (semverSatisfies h expectVersion range)
                  then Some range else None)
               dependencyProperties).
Proof.
  intros Hin. unfold scan.
  assert (∀ props acc,
            JS.get (foldl (λ acc property,
               match JS.get packageJson property with
               | None => acc
               | Some deps =>
                   (scan_upgrade h deps acc.1, scan_deprecated h deps acc.2)
               end) acc props).1 depName =
            match last (omap (λ property,
                          deps ← JS.get packageJson property;
                          range ← JS.get deps depName;
                          if JS.truthy range &&
                             negb (semverSatisfies h expectVersion range)
                          then Some range else None) props) with
            | Some range => Some (range, "^3.1.1")
            | None => JS.get acc.1 depName
            end) as Hfold.
  { induction props as [|q props IH]; intros acc; [done|].
    cbn [foldl omap list_omap]. rewrite IH. clear IH.
    destruct (JS.get packageJson q) as [deps|] eqn:Hq; cbn [mbind option_bind];
      [|done].
    cbn [fst]. rewrite scan_upgrade_get.
    destruct (JS.get deps depName) as [r|]; cbn [mbind option_bind]; [|done].
    rewrite (bool_decide_eq_true_2 _ Hin), andb_true_r.
    destruct (JS.truthy r && negb (semverSatisfies h expectVersion r)); [|done].
    rewrite last_cons. by destruct (last _). }
  rewrite Hfold. by destruct (last _).
Qed.

Lemma X17_witness :
  JS.get (scan demo
            [("dependencies", [("@tarojs/taro", "1.3.0")]);
             ("devDependencies", [("@tarojs/taro", "2.2.7")])]).1
         "@tarojs/taro" =
    Some ("2.2.7", "^3.1.1").
Proof.
  rewrite X17_the_last_property_decides_the_shown_range;
    [reflexivity|apply list_elem_of_here].
Defined.

(** ** [bootstrap]: a dirty working tree *)

(** X18.  When git is asked and [ensureGitClean] ends the process, that is
    all [bootstrap] does: the project is not even looked at. *)
Theorem X18_dirty_tree_stops_bootstrap
    (h : host) (o : options) (s : fs) :
  is_local h = false →
  force o = false →
  result (ensureGitClean h s) = Exit 1 →
  bootstrap h o s = ensureGitClean h s ∧
  ∀ dir, NewProject dir ∉ emitted (bootstrap h o s).
Proof.
  intros Hlocal Hforce Hexit.
  assert (bootstrap h o s = ensureGitClean h s) as ->.
  { rewrite bootstrap_split. unfold prepare. rewrite bind_assoc.
    assert (gate h o s = ensureGitClean h s) as Hgate.
    { by rewrite gate_step, Hlocal, Hforce. }
    rewrite (bind_Exit (gate h o) _ s 1) by (by rewrite Hgate).
    rewrite Hgate. by destruct (ensureGitClean h s); simplify_eq/=. }
  split; [done|]. intros dir Hin.
  rewrite ensureGitClean_step in Hin, Hexit.
  destruct (match isGitClean h s with JS.Ok _ => _ | JS.Err _ => _ end);
    [discriminate Hexit|]. cbn [emitted] in Hin. not_member Hin.
Qed.

Lemma X18_witness :
  bootstrap (lab None (JS.Ok false) (JS.Ok None) "No" failing_child)
    demo_options ∅ =
    Step (Exit 1) ∅
      [GitStatus; Log ["Sorry that there are still some git changes"];
       Log [nl +:+ " you must commit or stash them firstly"]].
Proof.
  rewrite (proj1 (X18_dirty_tree_stops_bootstrap
                    (lab None (JS.Ok false) (JS.Ok None) "No" failing_child)
                    demo_options ∅ eq_refl eq_refl eq_refl)).
  reflexivity.
Defined.

(** ** [transform] and [run] outside local mode *)

(** X19.  Outside local mode a failing pass is contained.  The catch block
    of [transform] only logs the error, so [transform] returns whatever its
    child does; [run] returns after the third pass; and once [bootstrap] has
    come as far as the passes, its outcome is the outcome of the steps
    after them. *)
Theorem X19_outside_local_mode_a_failing_pass_is_contained
    (h : host) (o : options) (s : fs) :
  is_local h = false →
  (∀ (t filePath : string) (s' : fs),
     let args := pass_args h filePath o t in
     let child := execa h (jscodeshiftBin h) args s' in
     transform h t "babylon" filePath o s' =
       Step (Ret tt) child.2
         ([Log [chalk h "bgGreen.bold" "Transform"; t];
           Spawn (jscodeshiftBin h) args;
           Exited (jscodeshiftBin h) (JS.is_ok child.1)] ++
          match child.1 with
          | JS.Ok _ => []
          | JS.Err err => [LogError err]
          end)) ∧
  (∀ filePath : string, result (run h filePath o s) = Ret tt) ∧
  (∀ p : project,
     result (prepare h o s) = Ret p →
     result (bootstrap h o s) =
       result (finish h p
         (disk (run h (sourceRoot p) (set_pages o (scope p))
                  (disk (prepare h o s)))))).
Proof.
  intros Hlocal. split_and!.
  - intros t filePath s'. cbv zeta. rewrite transform_step. cbv zeta.
    rewrite Hlocal. by destruct (execa h _ _ s').1 as [[]|err].
  - intros filePath.
    by destruct (run_ends h filePath o s) as [?|(e & _ & ?)]; [|congruence].
  - intros p Hp. rewrite (bootstrap_after_prepare h o s p Hp). cbv zeta.
    by destruct (run_ends h (sourceRoot p) (set_pages o (scope p))
                   (disk (prepare h o s))) as [-> | (e & _ & ?)];
      [|congruence].
Qed.

(** X19 on the demo host, whose three passes all fail. *)
Lemma X19_witness :
  result (run demo "src" demo_options ∅) = Ret tt ∧
  result (bootstrap demo demo_options ∅) = Ret tt.
Proof.
  destruct (X19_outside_local_mode_a_failing_pass_is_contained
              demo demo_options ∅ eq_refl) as (_ & Hrun & Hboot).
  split; [apply Hrun|].
  rewrite (Hboot demo_project); vm_compute; reflexivity.
Defined.
